(** * A shallow embedding of [pythonserver2.py]

    The program is a small HTTP file server built on Python's
    [http.server]: [RequestHandler.do_GET] resolves the request path
    below the working directory and hands the request to the first
    matching handler of an ordered list of cases, [do_POST] echoes the
    request body.

    Conventions of the model.
    - A Python [str] is a [string]; its characters are read as code
      points 0..255, the range in which [http.server] delivers the
      request line.  [bytes] are [list byte]; [encode_utf8] is
      [str.encode('utf-8')] on that range.
    - Paths are POSIX paths ([posixpath]).
    - The operating system is a record of oracles ([world]): the working
      directory, [stat], reading a file, listing a directory, running a
      script.  One request sees one snapshot of it.
    - Code that raises or touches the operating system runs in the monad
      [M]: a log of events together with a value or a raised exception.
    - The handler instance is the record [handler]; the response written
      to [wfile] is the record [response] (only the headers the program
      sends itself are kept). *)

From Stdlib Require Import Strings.String Strings.Ascii Strings.Byte.
From Stdlib Require Import List Bool Arith NArith ZArith Lia.
From Stdlib Require Import DecimalString Sorted Permutation Mergesort Orders.
From Stdlib Require DecimalNat.
Import ListNotations.

Open Scope list_scope.
Open Scope string_scope.

(** ** Python strings and bytes *)

Module PyStr.

Definition bytes := list byte.

(** The characters the templates need and a literal cannot hold. *)
Definition nl : string := String "010"%char EmptyString.
Definition dquote : string := String "034"%char EmptyString.
Definition squote : string := String "039"%char EmptyString.

(** [s.startswith(pre)] *)
Definition startswith (s pre : string) : bool := String.prefix pre s.

(** [s.endswith(suf)]: [suf] is [s] or ends a tail of [s]. *)
Fixpoint endswith (s suf : string) : bool :=
  if String.eqb s suf then true
  else match s with
       | EmptyString => false
       | String _ s' => endswith s' suf
       end.

(** [s.split(sep)] for a one-character separator. *)
Fixpoint split (sep : ascii) (s : string) : list string :=
  match s with
  | EmptyString => [EmptyString]
  | String c s' =>
      if Ascii.eqb c sep then EmptyString :: split sep s'
      else match split sep s' with
           | [] => [String c EmptyString]
           | comp :: comps => String c comp :: comps
           end
  end.

(** [sep.join(items)] *)
Definition join (sep : string) (items : list string) : string :=
  String.concat sep items.

(** [sep * n] *)
Fixpoint repeat_str (sep : string) (n : nat) : string :=
  match n with
  | O => EmptyString
  | S n' => sep ++ repeat_str sep n'
  end.

(** [str(n)] for a natural number. *)
Definition str_of_nat (n : nat) : string := NilZero.string_of_uint (Nat.to_uint n).
Definition str_of_N (n : N) : string := NilZero.string_of_uint (N.to_uint n).

(** [b"..."] literals *)
Definition b (s : string) : bytes := list_byte_of_string s.

(** [s.encode('utf-8')] on code points 0..255: one byte below 128, two
    bytes from 128 on. *)
Definition encode_char (c : ascii) : bytes :=
  let n := N_of_ascii c in
  if (n <? 128)%N then [byte_of_ascii c]
  else [byte_of_ascii (ascii_of_N (192 + n / 64)); byte_of_ascii (ascii_of_N (128 + n mod 64))].

Fixpoint encode_utf8 (s : string) : bytes :=
  match s with
  | EmptyString => []
  | String c s' => (encode_char c ++ encode_utf8 s')%list
  end.

(** [s.lower()] on code points 0..255. *)
Definition lower_char (c : ascii) : ascii :=
  let n := N_of_ascii c in
  if ((65 <=? n) && (n <=? 90) || (192 <=? n) && (n <=? 222) && negb (n =? 215))%N
  then ascii_of_N (n + 32) else c.

Fixpoint lower (s : string) : string :=
  match s with
  | EmptyString => EmptyString
  | String c s' => String (lower_char c) (lower s')
  end.

(** White space as [int()] skips it, on code points 0..255. *)
Definition is_space (c : ascii) : bool :=
  let n := N_of_ascii c in
  ((9 <=? n) && (n <=? 13) || (28 <=? n) && (n <=? 32) || (n =? 133) || (n =? 160))%N.

Fixpoint lstrip (s : string) : string :=
  match s with
  | EmptyString => EmptyString
  | String c s' => if is_space c then lstrip s' else s
  end.

Definition rev_str (s : string) : string :=
  string_of_list_ascii (rev (list_ascii_of_string s)).

Definition strip (s : string) : string := rev_str (lstrip (rev_str (lstrip s))).

Definition digit_of (c : ascii) : option N :=
  let n := N_of_ascii c in
  if ((48 <=? n) && (n <=? 57))%N then Some (n - 48)%N else None.

(** Decimal digits, single underscores allowed between two digits. *)
Fixpoint parse_digits (acc : N) (after_digit : bool) (s : string) : option N :=
  match s with
  | EmptyString => if after_digit then Some acc else None
  | String c s' =>
      match digit_of c with
      | Some d => parse_digits (10 * acc + d) true s'
      | None =>
          if Ascii.eqb c "_"%char && after_digit then parse_digits acc false s'
          else None
      end
  end.

(** [int(s)] for a [str]: [None] stands for [ValueError].  (The bound
    on the number of digits that recent interpreters enforce is left
    out.) *)
Definition int_of_str (s : string) : option Z :=
  match strip s with
  | String "+"%char r => option_map Z.of_N (parse_digits 0 false r)
  | String "-"%char r => option_map (fun n => Z.opp (Z.of_N n)) (parse_digits 0 false r)
  | r => option_map Z.of_N (parse_digits 0 false r)
  end.

(** The text of the [ValueError] that [int(s)] raises ([repr(s)] written
    for a string without quotes or control characters). *)
Definition int_error (s : string) : string :=
  "invalid literal for int() with base 10: " ++ squote ++ s ++ squote.

End PyStr.
Import PyStr.

(** ** [posixpath]: the functions of [os.path] the program calls *)

Module PosixPath.

Definition sep : string := "/".
Definition dot : string := ".".
Definition dotdot : string := "..".

Definition isabs (s : string) : bool := startswith s sep.

(** [os.path.join(a, b)] *)
Definition join (a b' : string) : string :=
  if startswith b' sep then b'
  else if String.eqb a EmptyString || endswith a sep then a ++ b'
  else a ++ sep ++ b'.

(** One round of the loop of [normpath] over the components. *)
Definition normpath_step (initial_slashes : nat) (new_comps : list string) (comp : string)
  : list string :=
  if String.eqb comp EmptyString || String.eqb comp dot then new_comps
  else if negb (String.eqb comp dotdot)
          || (Nat.eqb initial_slashes 0 && Nat.eqb (List.length new_comps) 0)
          || (negb (Nat.eqb (List.length new_comps) 0)
              && String.eqb (last new_comps EmptyString) dotdot)
       then (new_comps ++ [comp])%list
       else if negb (Nat.eqb (List.length new_comps) 0) then removelast new_comps
            else new_comps.

(** [os.path.normpath(path)] *)
Definition normpath (path : string) : string :=
  if String.eqb path EmptyString then dot
  else
    let initial_slashes :=
      if startswith path sep then
        if startswith path (repeat_str sep 2) && negb (startswith path (repeat_str sep 3))
        then 2 else 1
      else 0 in
    let comps := split "/"%char path in
    let new_comps := fold_left (normpath_step initial_slashes) comps [] in
    let path := PyStr.join sep new_comps in
    let path := if Nat.eqb initial_slashes 0 then path
                else repeat_str sep initial_slashes ++ path in
    if String.eqb path EmptyString then dot else path.

(** [os.path.abspath(path)], with the working directory passed in. *)
Definition abspath (cwd path : string) : string :=
  if negb (isabs path) then normpath (join cwd path) else normpath path.

End PosixPath.

(** ** The operating system, the request and the response *)

(** What [os.stat] tells about a path: a regular file, a directory, or
    something else (a socket, a device). *)
Inductive file_kind := S_IFREG | S_IFDIR | S_IFOTHER.

(** The result of a system call that can fail: a value, an [OSError]
    (which [IOError] names too) with its text, or another exception
    (such as [MemoryError]) with its text. *)
Inductive io (A : Type) :=
| IoOk (a : A)
| IoError (msg : string)
| IoFault (msg : string).
Arguments IoOk {A} a.
Arguments IoError {A} msg.
Arguments IoFault {A} msg.

(** The result of [subprocess.run(..., capture_output=True, text=True,
    check=True)]: the captured standard output, [CalledProcessError]
    with the captured standard error, or another exception. *)
Inductive proc_result :=
| Completed (stdout : string)
| CalledProcessError (stderr : string)
| RunFailed (msg : string).

Record world := {
  getcwd : string;
  os_stat : string -> option file_kind;
  open_read : string -> io bytes;
  os_listdir : string -> io (list string);
  subprocess_run : string -> proc_result
}.

(** The attributes of a [RequestHandler] instance the program reads;
    [full_path] is the one [do_GET] assigns. [rfile] holds the bytes
    that follow the request's headers, up to the end of the stream. *)
Record handler := {
  path : string;
  command : string;
  client_address : string * N;
  date_time_string : string;
  headers : list (string * string);
  rfile : bytes;
  full_path : string
}.

Definition set_full_path (self : handler) (p : string) : handler :=
  {| path := path self; command := command self;
     client_address := client_address self;
     date_time_string := date_time_string self;
     headers := headers self; rfile := rfile self;
     full_path := p |}.

Record response := {
  status : N;
  resp_headers : list (string * string);
  body : bytes
}.

(** [self.headers.get(name)]: the first header whose name matches,
    letter case ignored. *)
Fixpoint headers_get (hs : list (string * string)) (name : string) : option string :=
  match hs with
  | [] => None
  | (k, v) :: hs' => if String.eqb (lower k) (lower name) then Some v else headers_get hs' name
  end.

(** [rfile.read(n)]: at most [n] bytes, everything when [n] is negative;
    the data and what stays in the stream. *)
Definition rfile_read (n : Z) (stream : bytes) : bytes * bytes :=
  if (n <? 0)%Z then (stream, [])
  else (firstn (Z.to_nat n) stream, skipn (Z.to_nat n) stream).

(** ** Exceptions and the event log *)

Inductive exn :=
| ServerException (msg : string)
| OSError (msg : string)
| PyException (msg : string).

(** [str(e)] *)
Definition str_exn (e : exn) : string :=
  match e with
  | ServerException msg => msg
  | OSError msg => msg
  | PyException msg => msg
  end.

(** The classes of the case handlers. *)
Inductive case :=
| CaseNoFile
| CaseExistingFile
| CaseDirectoryIndexFile
| CaseDirectoryNoIndexFile
| CaseCGIFile
| CaseAlwaysFail.

(** What a request does that can be observed: the system calls, and the
    calls of [test] and [act] made by the loop of [do_GET]. *)
Inductive event :=
| EvStat (p : string)
| EvOpen (p : string)
| EvListdir (p : string)
| EvSpawn (p : string)
| EvTest (c : case)
| EvAct (c : case).

Inductive result (A : Type) :=
| Ok (a : A)
| Raise (e : exn).
Arguments Ok {A} a.
Arguments Raise {A} e.

Definition M (A : Type) : Type := list event * result A.

Definition ret {A} (a : A) : M A := ([], Ok a).

Definition bind {A B} (m : M A) (f : A -> M B) : M B :=
  match m with
  | (t, Ok a) => ((t ++ fst (f a))%list, snd (f a))
  | (t, Raise e) => (t, Raise e)
  end.

Definition raise {A} (e : exn) : M A := ([], Raise e).

Definition emit (ev : event) : M unit := ([ev], Ok tt).

(** [try: m  except ...: on_exn e]; [on_exn e = None] when no clause
    catches [e]. *)
Definition try_except {A} (m : M A) (on_exn : exn -> option (M A)) : M A :=
  match m with
  | (t, Ok a) => (t, Ok a)
  | (t, Raise e) =>
      match on_exn e with
      | Some k => ((t ++ fst k)%list, snd k)
      | None => (t, Raise e)
      end
  end.

Definition lift_io {A} (r : io A) : M A :=
  match r with
  | IoOk a => ret a
  | IoError msg => raise (OSError msg)
  | IoFault msg => raise (PyException msg)
  end.

Declare Scope py_scope.
Delimit Scope py_scope with py.
Notation "x <- m ;; k" := (bind m (fun x => k))
  (at level 61, m at next level, right associativity) : py_scope.
Notation "m ;; k" := (bind m (fun _ => k))
  (at level 61, right associativity) : py_scope.
Open Scope py_scope.

Definition log {A} (m : M A) : list event := fst m.
Definition outcome {A} (m : M A) : result A := snd m.

(** ** [os.path.exists], [os.path.isfile], [os.path.isdir]

    Each is one [stat]; a failing [stat] reads as [False]. *)

Definition os_path_exists (w : world) (p : string) : M bool :=
  emit (EvStat p) ;;
  ret (match os_stat w p with Some _ => true | None => false end).

Definition os_path_isfile (w : world) (p : string) : M bool :=
  emit (EvStat p) ;;
  ret (match os_stat w p with Some S_IFREG => true | _ => false end).

Definition os_path_isdir (w : world) (p : string) : M bool :=
  emit (EvStat p) ;;
  ret (match os_stat w p with Some S_IFDIR => true | _ => false end).

(** ** [sorted] on a list of [str]: a stable merge sort by code points *)

Module StrOrder <: TotalLeBool.
Definition t := string.
Definition leb : t -> t -> bool := String.leb.
Definition leb_total : forall x y, leb x y = true \/ leb y x = true := String.leb_total.
End StrOrder.

Module StrSort := Sort StrOrder.

Definition sorted (l : list string) : list string := StrSort.sort l.

(** ** [RequestHandler]: the page templates *)

Definition ERROR_PAGE (path msg : string) : string :=
  "<html>" ++ nl ++
  "<head><title>Error accessing " ++ path ++ "</title></head>" ++ nl ++
  "<body>" ++ nl ++
  "<h1>Error accessing " ++ path ++ "</h1>" ++ nl ++
  "<p>" ++ msg ++ "</p>" ++ nl ++
  "</body>" ++ nl ++
  "</html>".

Definition LISTING_PAGE (path items : string) : string :=
  "<html>" ++ nl ++
  "<head><title>Directory listing for " ++ path ++ "</title></head>" ++ nl ++
  "<body>" ++ nl ++
  "<h2>Directory listing for " ++ path ++ "</h2>" ++ nl ++
  "<hr>" ++ nl ++
  "<ul>" ++ nl ++
  items ++ nl ++
  "</ul>" ++ nl ++
  "<hr>" ++ nl ++
  "</body>" ++ nl ++
  "</html>".

Definition ROOT_PAGE (date_time client_host client_port command path : string) : string :=
  "<html>" ++ nl ++
  "<head><title>Server Info</title></head>" ++ nl ++
  "<body>" ++ nl ++
  "<h1>Server Information</h1>" ++ nl ++
  "<table border=" ++ dquote ++ "1" ++ dquote ++ ">" ++ nl ++
  "<tr><th>Header</th><th>Value</th></tr>" ++ nl ++
  "<tr><td>Date and time</td><td>" ++ date_time ++ "</td></tr>" ++ nl ++
  "<tr><td>Client host</td><td>" ++ client_host ++ "</td></tr>" ++ nl ++
  "<tr><td>Client port</td><td>" ++ client_port ++ "</td></tr>" ++ nl ++
  "<tr><td>Command</td><td>" ++ command ++ "</td></tr>" ++ nl ++
  "<tr><td>Path</td><td>" ++ path ++ "</td></tr>" ++ nl ++
  "</table>" ++ nl ++
  "</body>" ++ nl ++
  "</html>".

(** ** [RequestHandler]: the methods that write a response *)

(** [send_content(content)], with its default status 200. *)
Definition send_content (content : bytes) : response :=
  {| status := 200;
     resp_headers := [("Content-Type", "text/html");
                      ("Content-Length", str_of_nat (List.length content))];
     body := content |}.

(** [handle_error(msg, status)] *)
Definition handle_error (self : handler) (msg : string) (st : N) : response :=
  let page := encode_utf8 (ERROR_PAGE (path self) msg) in
  {| status := st;
     resp_headers := [("Content-Type", "text/html");
                      ("Content-Length", str_of_nat (List.length page))];
     body := page |}.

(** [send_root_page()] *)
Definition send_root_page (self : handler) : response :=
  let page := encode_utf8
    (ROOT_PAGE (date_time_string self)
               (fst (client_address self))
               (str_of_N (snd (client_address self)))
               (command self)
               (path self)) in
  send_content page.

(** The [if]/[elif] chain of [handle_file] that picks the MIME type. *)
Definition content_type_of (full_path : string) : string :=
  if endswith full_path ".html" then "text/html"
  else if endswith full_path ".css" then "text/css"
  else if endswith full_path ".js" then "application/javascript"
  else if endswith full_path ".png" then "image/png"
  else if endswith full_path ".jpg" || endswith full_path ".jpeg" then "image/jpeg"
  else "text/plain".

(** [RequestHandler.handle_file(full_path)] *)
Definition handle_file (w : world) (self : handler) (full_path : string) : M response :=
  try_except
    (emit (EvOpen full_path) ;;
     content <- lift_io (open_read w full_path) ;;
     let content_type := content_type_of full_path in
     ret {| status := 200;
            resp_headers := [("Content-Type", content_type);
                             ("Content-Length", str_of_nat (List.length content))];
            body := content |})
    (fun e => match e with
              | OSError _ => Some (raise (ServerException ("Cannot read file: " ++ full_path)))
              | _ => None
              end).

(** The loop of [list_dir] that builds [items]. *)
Fixpoint listing_items (self : handler) (entries : list string) : list string :=
  match entries with
  | [] => []
  | entry :: rest =>
      if negb (startswith entry ".") then
        let link := PosixPath.join (path self) entry in
        ("<li><a href=" ++ dquote ++ link ++ dquote ++ ">" ++ entry ++ "</a></li>")
          :: listing_items self rest
      else listing_items self rest
  end.

(** [RequestHandler.list_dir(full_path)] *)
Definition list_dir (w : world) (self : handler) (full_path : string) : M response :=
  try_except
    (emit (EvListdir full_path) ;;
     names <- lift_io (os_listdir w full_path) ;;
     let entries := sorted names in
     let items := listing_items self entries in
     let page := encode_utf8 (LISTING_PAGE (path self) (PyStr.join nl items)) in
     ret (send_content page))
    (fun e => match e with
              | OSError msg =>
                  Some (raise (ServerException
                    (squote ++ path self ++ squote ++ " cannot be listed: " ++ msg)))
              | _ => None
              end).

(** [RequestHandler.run_cgi(full_path)] *)
Definition run_cgi (w : world) (self : handler) (full_path : string) : M response :=
  emit (EvSpawn full_path) ;;
  match subprocess_run w full_path with
  | Completed stdout => ret (send_content (encode_utf8 stdout))
  | CalledProcessError stderr => ret (handle_error self ("CGI script error: " ++ stderr) 500)
  | RunFailed msg => ret (handle_error self ("Error running CGI: " ++ msg) 500)
  end.

(** ** The case handlers *)

(** [BaseCase.handle_file]: no case calls it (they call the handler's). *)
Definition BaseCase_handle_file (w : world) (self : handler) (full_path : string) : M response :=
  try_except
    (emit (EvOpen full_path) ;;
     content <- lift_io (open_read w full_path) ;;
     ret (send_content content))
    (fun e => match e with
              | OSError msg =>
                  Some (ret (handle_error self
                    (squote ++ full_path ++ squote ++ " cannot be read: " ++ msg) 404))
              | _ => None
              end).

(** [BaseCase.index_path] *)
Definition index_path (self : handler) : string :=
  PosixPath.join (full_path self) "index.html".

(** [case.test(handler)]; [and] evaluates its right operand only when
    the left one is true. *)
Definition test (w : world) (c : case) (self : handler) : M bool :=
  match c with
  | CaseNoFile =>
      e <- os_path_exists w (full_path self) ;; ret (negb e)
  | CaseExistingFile =>
      os_path_isfile w (full_path self)
  | CaseDirectoryIndexFile =>
      d <- os_path_isdir w (full_path self) ;;
      if d then os_path_isfile w (index_path self) else ret false
  | CaseDirectoryNoIndexFile =>
      d <- os_path_isdir w (full_path self) ;;
      if d then (f <- os_path_isfile w (index_path self) ;; ret (negb f)) else ret false
  | CaseCGIFile =>
      f <- os_path_isfile w (full_path self) ;;
      if f then ret (endswith (full_path self) ".py") else ret false
  | CaseAlwaysFail =>
      ret true
  end.

(** [case.act(handler)] *)
Definition act (w : world) (c : case) (self : handler) : M response :=
  match c with
  | CaseNoFile =>
      raise (ServerException (squote ++ path self ++ squote ++ " not found"))
  | CaseExistingFile =>
      handle_file w self (full_path self)
  | CaseDirectoryIndexFile =>
      handle_file w self (index_path self)
  | CaseDirectoryNoIndexFile =>
      list_dir w self (full_path self)
  | CaseCGIFile =>
      run_cgi w self (full_path self)
  | CaseAlwaysFail =>
      raise (ServerException ("Unknown object " ++ squote ++ path self ++ squote))
  end.

(** ** [RequestHandler.do_GET] and [RequestHandler.do_POST] *)

Definition CASES : list case :=
  [CaseNoFile; CaseExistingFile; CaseDirectoryIndexFile;
   CaseDirectoryNoIndexFile; CaseCGIFile; CaseAlwaysFail].

(** [for case in cases: if case.test(self): case.act(self); break].
    The value is what was written to [wfile]: [None] when the loop ends
    with no case taken. *)
Fixpoint run_cases (w : world) (cases : list case) (self : handler) : M (option response) :=
  match cases with
  | [] => ret None
  | c :: rest =>
      emit (EvTest c) ;;
      t <- test w c self ;;
      if t then (emit (EvAct c) ;; r <- act w c self ;; ret (Some r))
      else run_cases w rest self
  end.

(** The body of the [try] of [do_GET]. *)
Definition do_GET_try (w : world) (self : handler) : M (option response) :=
  if String.eqb (path self) "/" then ret (Some (send_root_page self))
  else
    let self := set_full_path self (PosixPath.abspath (getcwd w) (getcwd w ++ path self)) in
    if negb (startswith (full_path self) (getcwd w))
    then raise (ServerException "Attempted directory traversal")
    else run_cases w CASES self.

(** [do_GET]: the events of the request and the response written. *)
Definition do_GET (w : world) (self : handler) : list event * option response :=
  match do_GET_try w self with
  | (t, Ok r) => (t, r)
  | (t, Raise (ServerException msg)) => (t, Some (handle_error self msg 404))
  | (t, Raise e) =>
      (t, Some (handle_error self ("Internal server error: " ++ str_exn e) 500))
  end.

(** [do_POST]: the response written and what stays unread in [rfile]. *)
Definition do_POST (self : handler) : response * bytes :=
  let content_length :=
    match headers_get (headers self) "Content-Length" with
    | None => inl 0%Z
    | Some v => match int_of_str v with
                | Some n => inl n
                | None => inr (int_error v)
                end
    end in
  match content_length with
  | inl content_length =>
      let (post_data, rest) := rfile_read content_length (rfile self) in
      let response := (b "Received: " ++ post_data)%list in
      ({| status := 200;
          resp_headers := [("Content-Type", "text/plain");
                           ("Content-Length", str_of_nat (List.length response))];
          body := response |}, rest)
  | inr msg =>
      (handle_error self ("Error processing POST: " ++ msg) 500, rfile self)
  end.

(** ** Notions the statements below use *)

(** The events of testing the cases of [cases], one after the other. *)
Definition tests_log (w : world) (self : handler) (cases : list case) : list event :=
  flat_map (fun c => EvTest c :: log (test w c self)) cases.

(** The value of [case.test(handler)]. *)
Definition test_value (w : world) (c : case) (self : handler) : bool :=
  match outcome (test w c self) with
  | Ok t => t
  | Raise _ => false
  end.

(** The first case of [CASES] whose test holds. *)
Definition first_match (w : world) (self : handler) : option case :=
  find (fun c => test_value w c self) CASES.

(** The outcome of the loop when the case taken ends with [r]. *)
Definition final {A} (r : result A) : result (option A) :=
  match r with
  | Ok a => Ok (Some a)
  | Raise e => Raise e
  end.

(** The resolved path of a request, as [do_GET] computes it. *)
Definition resolve (w : world) (self : handler) : string :=
  PosixPath.abspath (getcwd w) (getcwd w ++ path self).

(** The events that touch the file system or start a process. *)
Definition is_system_event (ev : event) : bool :=
  match ev with
  | EvStat _ | EvOpen _ | EvListdir _ | EvSpawn _ => true
  | EvTest _ | EvAct _ => false
  end.

(** Containment as the specification words it: [p] is [root] or lies
    below it, component by component. *)
Definition within_root (root p : string) : bool :=
  String.eqb p root
  || startswith p (if endswith root "/" then root else root ++ "/").


(** The static table of the specification: extension and MIME type. *)
Definition MIME_TABLE : list (string * string) :=
  [(".html", "text/html"); (".css", "text/css"); (".js", "application/javascript");
   (".png", "image/png"); (".jpg", "image/jpeg"); (".jpeg", "image/jpeg")].


Definition visible (entry : string) : bool := negb (startswith entry ".").

(** The rows of the root page, as the lines of its text. *)
Definition root_page_lines (self : handler) : list string :=
  ["<html>";
   "<head><title>Server Info</title></head>";
   "<body>";
   "<h1>Server Information</h1>";
   "<table border=" ++ dquote ++ "1" ++ dquote ++ ">";
   "<tr><th>Header</th><th>Value</th></tr>";
   "<tr><td>Date and time</td><td>" ++ date_time_string self ++ "</td></tr>";
   "<tr><td>Client host</td><td>" ++ fst (client_address self) ++ "</td></tr>";
   "<tr><td>Client port</td><td>" ++ str_of_N (snd (client_address self)) ++ "</td></tr>";
   "<tr><td>Command</td><td>" ++ command self ++ "</td></tr>";
   "<tr><td>Path</td><td>" ++ path self ++ "</td></tr>";
   "</table>";
   "</body>";
   "</html>"].

Definition str_le (a c : string) : Prop := String.leb a c = true.

(** The entries a listing shows, in the order it shows them. *)
Definition shown_entries (names : list string) : list string :=
  filter visible (sorted names).




(** The case that [stat] picks: the table behind the six tests. *)
Definition case_by_stat (w : world) (self : handler) : case :=
  match os_stat w (full_path self) with
  | None => CaseNoFile
  | Some S_IFREG => CaseExistingFile
  | Some S_IFDIR =>
      match os_stat w (index_path self) with
      | Some S_IFREG => CaseDirectoryIndexFile
      | _ => CaseDirectoryNoIndexFile
      end
  | Some S_IFOTHER => CaseAlwaysFail
  end.

(** The path a system event is about. *)
Definition event_path (ev : event) : option string :=
  match ev with
  | EvStat p | EvOpen p | EvListdir p | EvSpawn p => Some p
  | EvTest _ | EvAct _ => None
  end.

(** A response that carries exactly a Content-Type and the length of
    its own body. *)
Definition length_header_matches (r : response) : Prop :=
  exists content_type,
    resp_headers r = [("Content-Type", content_type);
                      ("Content-Length", str_of_nat (List.length (body r)))].

(** [c] occurs in [s]. *)
Fixpoint has_char (c : ascii) (s : string) : bool :=
  match s with
  | EmptyString => false
  | String x s' => Ascii.eqb x c || has_char c s'
  end.

(** A component of a normalized path: not empty, not [.], not [..],
    and with no separator inside. *)
Definition clean_component (comp : string) : Prop :=
  comp <> EmptyString /\ comp <> "." /\ comp <> ".." /\ has_char "/"%char comp = false.

(** The number of slashes [normpath] keeps in front of an absolute
    path: two when the path starts with exactly two, one otherwise. *)
Definition leading_slashes (p : string) : nat :=
  if startswith p (repeat_str "/" 2) && negb (startswith p (repeat_str "/" 3))
  then 2 else 1.

(** Kinds of events, to count them in a log. *)
Definition is_stat (ev : event) : bool :=
  match ev with EvStat _ => true | _ => false end.

Definition is_read (ev : event) : bool :=
  match ev with EvOpen _ | EvListdir _ => true | _ => false end.

Definition is_act (ev : event) : bool :=
  match ev with EvAct _ => true | _ => false end.

Definition count_events (kind : event -> bool) (l : list event) : nat :=
  List.length (filter kind l).

(** ** A sample site, for the examples

    The server runs in [/srv]; [/srv2] is a sibling directory that is
    not part of the site. *)

Fixpoint assoc {A} (table : list (string * A)) (key : string) : option A :=
  match table with
  | [] => None
  | (k, v) :: rest => if String.eqb k key then Some v else assoc rest key
  end.

Definition site_stat : list (string * file_kind) :=
  [("/srv", S_IFDIR);
   ("/srv/index.html", S_IFREG);
   ("/srv/style.css", S_IFREG);
   ("/srv/hello.py", S_IFREG);
   ("/srv/locked.txt", S_IFREG);
   ("/srv/docs", S_IFDIR);
   ("/srv/docs/index.html", S_IFREG);
   ("/srv/private", S_IFDIR);
   ("/srv/private/index.html", S_IFREG);
   ("/srv/pub", S_IFDIR);
   ("/srv/pub/b.txt", S_IFREG);
   ("/srv/pub/a.txt", S_IFREG);
   ("/srv/pub/.hidden", S_IFREG);
   ("/srv/pub/Zed", S_IFDIR);
   ("/srv/fifo", S_IFOTHER);
   ("/srv2", S_IFDIR);
   ("/srv2/secret", S_IFREG)].

Definition site_files : list (string * io bytes) :=
  [("/srv/index.html", IoOk (b "<h1>home</h1>"));
   ("/srv/style.css", IoOk (b "body { margin: 0 }"));
   ("/srv/hello.py", IoOk (b "print('hello')"));
   ("/srv/locked.txt", IoError "[Errno 13] Permission denied");
   ("/srv/docs/index.html", IoOk (b "<h1>docs</h1>"));
   ("/srv/private/index.html", IoError "[Errno 13] Permission denied");
   ("/srv/pub/b.txt", IoOk (b "b"));
   ("/srv/pub/a.txt", IoOk (b "a"));
   ("/srv/pub/.hidden", IoOk (b "h"));
   ("/srv2/secret", IoOk (b "top secret"))].

Definition site_dirs : list (string * io (list string)) :=
  [("/srv", IoOk ["style.css"; "index.html"; "hello.py"; "locked.txt"; "docs";
                  "private"; "pub"; "fifo"]);
   ("/srv/docs", IoOk ["index.html"]);
   ("/srv/private", IoOk ["index.html"]);
   ("/srv/pub", IoOk ["b.txt"; ".hidden"; "a.txt"; "Zed"]);
   ("/srv/pub/Zed", IoError "[Errno 13] Permission denied");
   ("/srv2", IoOk ["secret"])].

Definition site : world :=
  {| getcwd := "/srv";
     os_stat := assoc site_stat;
     open_read := fun p =>
       match assoc site_files p with
       | Some r => r
       | None => IoError "[Errno 2] No such file or directory"
       end;
     os_listdir := fun p =>
       match assoc site_dirs p with
       | Some r => r
       | None => IoError "[Errno 2] No such file or directory"
       end;
     subprocess_run := fun _ => Completed "hello" |}.

(** A GET request for [p], as the handler holds it before [do_GET]. *)
Definition get_request (p : string) : handler :=
  {| path := p; command := "GET";
     client_address := ("127.0.0.1", 51234%N);
     date_time_string := "Tue, 03 Nov 2026 10:00:00 GMT";
     headers := [("Host", "localhost:8000")];
     rfile := [];
     full_path := EmptyString |}.

(** A POST request with the given headers and bytes after them. *)
Definition post_request (hs : list (string * string)) (data : bytes) : handler :=
  {| path := "/submit"; command := "POST";
     client_address := ("127.0.0.1", 51234%N);
     date_time_string := "Tue, 03 Nov 2026 10:00:00 GMT";
     headers := hs;
     rfile := data;
     full_path := EmptyString |}.

(** The request for [/hello.py], resolved. *)
Definition hello_request : handler :=
  set_full_path (get_request "/hello.py") "/srv/hello.py".

(** The sample site on a file system that lists its directories in
    the opposite order. *)
Definition site_reordered : world :=
  {| getcwd := getcwd site;
     os_stat := os_stat site;
     open_read := open_read site;
     os_listdir := fun p =>
       match os_listdir site p with
       | IoOk names => IoOk (rev names)
       | failure => failure
       end;
     subprocess_run := subprocess_run site |}.

(** * Properties *)

(** ** Sanity checks of the primitives *)

Example normpath_ex1 : PosixPath.normpath "/srv/../srv2/secret" = "/srv2/secret".
Proof. reflexivity. Qed.
Example normpath_ex2 : PosixPath.normpath "/srv/a/./b//c/../d/" = "/srv/a/b/d".
Proof. reflexivity. Qed.
Example normpath_ex3 : PosixPath.normpath "//a/../.." = "//".
Proof. reflexivity. Qed.
Example normpath_ex4 : PosixPath.normpath "a/../../b" = "../b".
Proof. reflexivity. Qed.
Example int_ex1 : int_of_str " 1_000 " = Some 1000%Z.
Proof. reflexivity. Qed.
Example int_ex2 : int_of_str "1__0" = None /\ int_of_str EmptyString = None /\ int_of_str "-0" = Some 0%Z
  /\ int_of_str "12a" = None /\ int_of_str "_1" = None /\ int_of_str "1_" = None.
Proof. repeat split; reflexivity. Qed.
Example encode_utf8_ex : encode_utf8 (String (ascii_of_nat 233) "a") = [xc3; xa9; x61].
Proof. reflexivity. Qed.
Example split_ex :
  split "/"%char "/a//b/" = [EmptyString; "a"; EmptyString; "b"; EmptyString]
  /\ split "/"%char EmptyString = [EmptyString].
Proof. split; reflexivity. Qed.
Example str_ex : str_of_nat 0 = "0" /\ str_of_nat 1234 = "1234" /\ str_of_N 8000 = "8000".
Proof. repeat split; reflexivity. Qed.
Example do_GET_ex_css :
  do_GET site (get_request "/style.css") =
  ([EvTest CaseNoFile; EvStat "/srv/style.css";
    EvTest CaseExistingFile; EvStat "/srv/style.css";
    EvAct CaseExistingFile; EvOpen "/srv/style.css"],
   Some {| status := 200;
           resp_headers := [("Content-Type", "text/css"); ("Content-Length", "18")];
           body := b "body { margin: 0 }" |}).
Proof. reflexivity. Qed.

Example do_GET_ex_missing :
  do_GET site (get_request "/missing.txt") =
  ([EvTest CaseNoFile; EvStat "/srv/missing.txt"; EvAct CaseNoFile],
   Some (handle_error (get_request "/missing.txt")
           (squote ++ "/missing.txt" ++ squote ++ " not found") 404)).
Proof. reflexivity. Qed.

Example do_GET_ex_traversal :
  do_GET site (get_request "/../../etc/passwd") =
  ([], Some (handle_error (get_request "/../../etc/passwd")
               "Attempted directory traversal" 404)).
Proof. reflexivity. Qed.

Example do_GET_ex_fifo :
  do_GET site (get_request "/fifo") =
  ([EvTest CaseNoFile; EvStat "/srv/fifo";
    EvTest CaseExistingFile; EvStat "/srv/fifo";
    EvTest CaseDirectoryIndexFile; EvStat "/srv/fifo";
    EvTest CaseDirectoryNoIndexFile; EvStat "/srv/fifo";
    EvTest CaseCGIFile; EvStat "/srv/fifo";
    EvTest CaseAlwaysFail; EvAct CaseAlwaysFail],
   Some (handle_error (get_request "/fifo")
           ("Unknown object " ++ squote ++ "/fifo" ++ squote) 404)).
Proof. reflexivity. Qed.

Example do_POST_ex_hello :
  do_POST (post_request [("Content-Length", "5")] (b "hello")) =
  ({| status := 200;
      resp_headers := [("Content-Type", "text/plain"); ("Content-Length", "15")];
      body := b "Received: hello" |}, []).
Proof. reflexivity. Qed.

(** ** The monad: how logs and outcomes compose *)

Lemma bind_ok {A B} (m : M A) (f : A -> M B) (a : A) :
  outcome m = Ok a ->
  bind m f = ((log m ++ log (f a))%list, outcome (f a)).
Proof.
  destruct m as [t r]; simpl; intros ->; reflexivity.
Qed.

Lemma bind_raise {A B} (m : M A) (f : A -> M B) (e : exn) :
  outcome m = Raise e ->
  bind m f = (log m, Raise e).
Proof.
  destruct m as [t r]; simpl; intros ->; reflexivity.
Qed.

Lemma M_eta {A} (m : M A) : m = (log m, outcome m).
Proof. destruct m; reflexivity. Qed.

(** A test never raises. *)
Lemma test_total (w : world) (c : case) (self : handler) :
  outcome (test w c self) = Ok (test_value w c self).
Proof.
  unfold test_value.
  destruct c; simpl;
    unfold os_path_exists, os_path_isfile, os_path_isdir; simpl;
    try reflexivity;
    destruct (os_stat w (full_path self)) as [[]|]; simpl; reflexivity.
Qed.

(** A test only calls [stat]. *)
Lemma test_log_stat (w : world) (c : case) (self : handler) :
  Forall (fun ev => exists p, ev = EvStat p) (log (test w c self)).
Proof.
  destruct c; simpl;
    unfold os_path_exists, os_path_isfile, os_path_isdir; simpl;
    try (destruct (os_stat w (full_path self)) as [[]|]; simpl);
    repeat constructor; eauto.
Qed.

(** ** The loop over the cases *)

(** The loop, on any list of cases: the tests of the cases before the
    first match run in order, then the matching case acts, and nothing
    of the cases after it runs. *)
Lemma run_cases_first_match (w : world) (self : handler)
      (before : list case) (c : case) (after : list case) :
  (forall c', In c' before -> test_value w c' self = false) ->
  test_value w c self = true ->
  run_cases w (before ++ c :: after) self =
  ((tests_log w self before
     ++ EvTest c :: log (test w c self)
     ++ EvAct c :: log (act w c self))%list,
   final (outcome (act w c self))).
Proof.
  intros Hbefore Hc.
  induction before as [|c' before IH]; simpl.
  - rewrite (M_eta (test w c self)), test_total, Hc; simpl.
    destruct (act w c self) as [t [r|e]]; simpl; try reflexivity.
    rewrite app_nil_r; reflexivity.
  - rewrite (M_eta (test w c' self)), test_total.
    rewrite (Hbefore c') by (left; reflexivity); simpl.
    rewrite IH by (intros c'' Hin; apply Hbefore; right; exact Hin).
    simpl. rewrite <- app_assoc. reflexivity.
Qed.

(** When no case matches, the loop writes nothing. *)
Lemma run_cases_no_match (w : world) (self : handler) (cases : list case) :
  (forall c, In c cases -> test_value w c self = false) ->
  run_cases w cases self = (tests_log w self cases, Ok None).
Proof.
  induction cases as [|c cases IH]; intros Hall; simpl.
  - reflexivity.
  - rewrite (M_eta (test w c self)), test_total.
    rewrite (Hall c) by (left; reflexivity); simpl.
    rewrite IH by (intros c' Hin; apply Hall; right; exact Hin).
    reflexivity.
Qed.

(** In [CASES] some case always matches: the last one does. *)
Lemma CASES_split_first_match (w : world) (self : handler) :
  exists before c after,
    CASES = (before ++ c :: after)%list
    /\ (forall c', In c' before -> test_value w c' self = false)
    /\ test_value w c self = true
    /\ first_match w self = Some c.
Proof.
  unfold first_match, CASES.
  destruct (test_value w CaseNoFile self) eqn:E1.
  { exists [], CaseNoFile; eexists; simpl; rewrite E1; repeat split; auto.
    intros c' []. }
  destruct (test_value w CaseExistingFile self) eqn:E2.
  { exists [CaseNoFile], CaseExistingFile; eexists; simpl; rewrite E1, E2.
    repeat split; auto. intros c' [<-|[]]; assumption. }
  destruct (test_value w CaseDirectoryIndexFile self) eqn:E3.
  { exists [CaseNoFile; CaseExistingFile], CaseDirectoryIndexFile; eexists; simpl.
    rewrite E1, E2, E3. repeat split; auto.
    intros c' [<-|[<-|[]]]; assumption. }
  destruct (test_value w CaseDirectoryNoIndexFile self) eqn:E4.
  { exists [CaseNoFile; CaseExistingFile; CaseDirectoryIndexFile],
      CaseDirectoryNoIndexFile; eexists; simpl.
    rewrite E1, E2, E3, E4. repeat split; auto.
    intros c' [<-|[<-|[<-|[]]]]; assumption. }
  destruct (test_value w CaseCGIFile self) eqn:E5.
  { exists [CaseNoFile; CaseExistingFile; CaseDirectoryIndexFile;
            CaseDirectoryNoIndexFile], CaseCGIFile; eexists; simpl.
    rewrite E1, E2, E3, E4, E5. repeat split; auto.
    intros c' [<-|[<-|[<-|[<-|[]]]]]; assumption. }
  exists [CaseNoFile; CaseExistingFile; CaseDirectoryIndexFile;
          CaseDirectoryNoIndexFile; CaseCGIFile], CaseAlwaysFail, []; simpl.
  rewrite E1, E2, E3, E4, E5. repeat split; auto.
  intros c' [<-|[<-|[<-|[<-|[<-|[]]]]]]; assumption.
Qed.

Lemma CASES_NoDup : NoDup CASES.
Proof.
  unfold CASES.
  repeat (constructor; [simpl; intuition discriminate|]).
  constructor.
Qed.

Lemma in_log_system (l : list event) (ev : event) :
  Forall (fun ev => is_system_event ev = true) l -> In ev l -> is_system_event ev = true.
Proof.
  intros Hall Hin. rewrite Forall_forall in Hall. exact (Hall ev Hin).
Qed.

(** A test touches the system and nothing else. *)
Lemma test_log_system (w : world) (c : case) (self : handler) :
  Forall (fun ev => is_system_event ev = true) (log (test w c self)).
Proof.
  eapply Forall_impl; [|apply test_log_stat].
  intros ev [p ->]; reflexivity.
Qed.

Lemma handle_file_log (w : world) (self : handler) (p : string) :
  log (handle_file w self p) = [EvOpen p].
Proof.
  unfold handle_file; simpl.
  destruct (open_read w p); reflexivity.
Qed.

Lemma list_dir_log (w : world) (self : handler) (p : string) :
  log (list_dir w self p) = [EvListdir p].
Proof.
  unfold list_dir; simpl.
  destruct (os_listdir w p); reflexivity.
Qed.

Lemma run_cgi_log (w : world) (self : handler) (p : string) :
  log (run_cgi w self p) = [EvSpawn p].
Proof.
  unfold run_cgi; simpl.
  destruct (subprocess_run w p); reflexivity.
Qed.

(** An act touches the system and nothing else. *)
Lemma act_log_system (w : world) (c : case) (self : handler) :
  Forall (fun ev => is_system_event ev = true) (log (act w c self)).
Proof.
  destruct c; unfold act;
    rewrite ?handle_file_log, ?list_dir_log, ?run_cgi_log;
    repeat constructor.
Qed.

Lemma in_tests_log_test (w : world) (self : handler) (cases : list case) (c : case) :
  In (EvTest c) (tests_log w self cases) -> In c cases.
Proof.
  induction cases as [|c' cases IH]; simpl; [tauto|].
  intros [Heq|Hin].
  - injection Heq as ->. left; reflexivity.
  - apply in_app_or in Hin as [Hin|Hin].
    + apply (in_log_system _ _ (test_log_system w c' self)) in Hin. discriminate.
    + right. exact (IH Hin).
Qed.

Lemma in_tests_log_act (w : world) (self : handler) (cases : list case) (c : case) :
  ~ In (EvAct c) (tests_log w self cases).
Proof.
  induction cases as [|c' cases IH]; simpl; [tauto|].
  intros [Heq|Hin]; [discriminate|].
  apply in_app_or in Hin as [Hin|Hin].
  - apply (in_log_system _ _ (test_log_system w c' self)) in Hin. discriminate.
  - exact (IH Hin).
Qed.

(** C2. The chain tries the cases of the fixed list [CASES] (not found,
    plain file, directory with index, directory listing, script,
    fallback) in that order; the first case whose test holds acts, and
    its outcome is the outcome of the chain.  The log shows the tests of
    the cases before it, its own test and its act, and nothing after:
    no later case is tested or run, whatever its test would say. *)
Theorem first_match_wins (w : world) (self : handler)
        (before : list case) (c : case) (after : list case) :
  CASES = (before ++ c :: after)%list ->
  (forall c', In c' before -> test_value w c' self = false) ->
  test_value w c self = true ->
  CASES = [CaseNoFile; CaseExistingFile; CaseDirectoryIndexFile;
           CaseDirectoryNoIndexFile; CaseCGIFile; CaseAlwaysFail]
  /\ run_cases w CASES self =
     ((tests_log w self before
        ++ EvTest c :: log (test w c self)
        ++ EvAct c :: log (act w c self))%list,
      final (outcome (act w c self)))
  /\ (forall c', In c' after -> ~ In (EvTest c') (log (run_cases w CASES self))
                               /\ ~ In (EvAct c') (log (run_cases w CASES self))).
Proof.
  intros Hsplit Hbefore Hc.
  split; [reflexivity|].
  assert (Hrun := run_cases_first_match w self before c after Hbefore Hc).
  rewrite <- Hsplit in Hrun.
  split; [exact Hrun|].
  intros c' Hafter.
  assert (Hnodup : NoDup (before ++ c :: after)) by (rewrite <- Hsplit; apply CASES_NoDup).
  assert (Hfresh : ~ In c' before /\ c' <> c).
  { apply NoDup_remove_2 in Hnodup as Hc_fresh.
    split.
    - intros Hin. revert Hnodup Hin Hafter. clear. intros Hnodup.
      induction before as [|x before IH]; simpl; intros Hin Hafter; [exact Hin|].
      inversion Hnodup as [|? ? Hx Hrest]; subst.
      destruct Hin as [->|Hin]; [|exact (IH Hrest Hin Hafter)].
      apply Hx, in_or_app. right. right. exact Hafter.
    - intros ->. apply Hc_fresh, in_or_app. right. exact Hafter. }
  destruct Hfresh as [Hnb Hnc].
  rewrite Hrun; unfold log at 1 3; simpl fst.
  split; intros Hin; apply in_app_or in Hin as [Hin|Hin].
  - apply in_tests_log_test in Hin. contradiction.
  - destruct Hin as [Heq|Hin]; [injection Heq as ->; contradiction|].
    apply in_app_or in Hin as [Hin|[Heq|Hin]]; try discriminate.
    + apply (in_log_system _ _ (test_log_system w c self)) in Hin. discriminate.
    + apply (in_log_system _ _ (act_log_system w c self)) in Hin. discriminate.
  - apply in_tests_log_act in Hin. exact Hin.
  - destruct Hin as [Heq|Hin]; [discriminate|].
    apply in_app_or in Hin as [Hin|[Heq|Hin]].
    + apply (in_log_system _ _ (test_log_system w c self)) in Hin. discriminate.
    + injection Heq as ->. contradiction.
    + apply (in_log_system _ _ (act_log_system w c self)) in Hin. discriminate.
Qed.

Lemma first_match_wins_witness :
  test_value site CaseCGIFile hello_request = true
  /\ CASES = [CaseNoFile; CaseExistingFile; CaseDirectoryIndexFile;
              CaseDirectoryNoIndexFile; CaseCGIFile; CaseAlwaysFail]
  /\ run_cases site CASES hello_request =
     ((tests_log site hello_request [CaseNoFile]
        ++ EvTest CaseExistingFile :: log (test site CaseExistingFile hello_request)
        ++ EvAct CaseExistingFile :: log (act site CaseExistingFile hello_request))%list,
      final (outcome (act site CaseExistingFile hello_request)))
  /\ (forall c', In c' [CaseDirectoryIndexFile; CaseDirectoryNoIndexFile;
                        CaseCGIFile; CaseAlwaysFail] ->
        ~ In (EvTest c') (log (run_cases site CASES hello_request))
        /\ ~ In (EvAct c') (log (run_cases site CASES hello_request))).
Proof.
  split; [reflexivity|].
  apply (first_match_wins site hello_request [CaseNoFile] CaseExistingFile
           [CaseDirectoryIndexFile; CaseDirectoryNoIndexFile; CaseCGIFile; CaseAlwaysFail]).
  - reflexivity.
  - intros c' [<-|[]]; reflexivity.
  - reflexivity.
Defined.

(** ** The chain, by what [stat] says of the resolved path *)

(** Splits [CASES] at the case [c] and rewrites the loop with
    [run_cases_first_match]. *)
Ltac take_case before c :=
  match goal with
  | |- run_cases ?w CASES ?self = _ =>
      let after := eval cbv in (skipn (S (List.length before)) CASES) in
      change CASES with (before ++ c :: after)%list;
      rewrite (run_cases_first_match w self before c after)
  end.

Section Chain.

Variable w : world.
Variable self : handler.

Let fp := full_path self.
Let idx := index_path self.

Lemma chain_not_found :
  os_stat w fp = None ->
  run_cases w CASES self =
  ([EvTest CaseNoFile; EvStat fp; EvAct CaseNoFile],
   Raise (ServerException (squote ++ path self ++ squote ++ " not found"))).
Proof.
  intros Hstat.
  take_case (@nil case) CaseNoFile.
  - unfold tests_log, log; simpl. rewrite ?Hstat. reflexivity.
  - intros c' [].
  - unfold test_value; simpl. fold fp. rewrite ?Hstat. reflexivity.
Qed.

Lemma chain_regular :
  os_stat w fp = Some S_IFREG ->
  run_cases w CASES self =
  ([EvTest CaseNoFile; EvStat fp; EvTest CaseExistingFile; EvStat fp;
    EvAct CaseExistingFile; EvOpen fp],
   final (outcome (handle_file w self fp))).
Proof.
  intros Hstat.
  take_case [CaseNoFile] CaseExistingFile.
  - unfold tests_log; simpl act. rewrite handle_file_log.
    unfold log; simpl. reflexivity.
  - intros c' [<-|[]]. unfold test_value; simpl. fold fp. rewrite ?Hstat. reflexivity.
  - unfold test_value; simpl. fold fp. rewrite ?Hstat. reflexivity.
Qed.

Lemma chain_dir_index :
  os_stat w fp = Some S_IFDIR ->
  os_stat w idx = Some S_IFREG ->
  run_cases w CASES self =
  ([EvTest CaseNoFile; EvStat fp; EvTest CaseExistingFile; EvStat fp;
    EvTest CaseDirectoryIndexFile; EvStat fp; EvStat idx;
    EvAct CaseDirectoryIndexFile; EvOpen idx],
   final (outcome (handle_file w self idx))).
Proof.
  intros Hstat Hidx.
  take_case [CaseNoFile; CaseExistingFile] CaseDirectoryIndexFile.
  - unfold tests_log; simpl act. rewrite handle_file_log.
    unfold log; simpl. fold fp. rewrite ?Hstat. reflexivity.
  - intros c' [<-|[<-|[]]]; unfold test_value; simpl; fold fp; rewrite ?Hstat; reflexivity.
  - unfold test_value; simpl. fold fp idx. rewrite ?Hstat; simpl. rewrite ?Hidx. reflexivity.
Qed.

Lemma chain_dir_listing :
  os_stat w fp = Some S_IFDIR ->
  os_stat w idx <> Some S_IFREG ->
  run_cases w CASES self =
  ([EvTest CaseNoFile; EvStat fp; EvTest CaseExistingFile; EvStat fp;
    EvTest CaseDirectoryIndexFile; EvStat fp; EvStat idx;
    EvTest CaseDirectoryNoIndexFile; EvStat fp; EvStat idx;
    EvAct CaseDirectoryNoIndexFile; EvListdir fp],
   final (outcome (list_dir w self fp))).
Proof.
  intros Hstat Hidx.
  assert (Hnot : match os_stat w idx with Some S_IFREG => true | _ => false end = false).
  { destruct (os_stat w idx) as [[]|]; congruence. }
  take_case [CaseNoFile; CaseExistingFile; CaseDirectoryIndexFile] CaseDirectoryNoIndexFile.
  - unfold tests_log; simpl act. rewrite list_dir_log.
    unfold log; simpl. fold fp. rewrite ?Hstat. reflexivity.
  - intros c' [<-|[<-|[<-|[]]]]; unfold test_value; simpl; fold fp idx;
      rewrite ?Hstat; simpl; rewrite ?Hnot; reflexivity.
  - unfold test_value; simpl. fold fp idx. rewrite ?Hstat; simpl. rewrite ?Hnot. reflexivity.
Qed.

Lemma chain_other :
  os_stat w fp = Some S_IFOTHER ->
  run_cases w CASES self =
  ([EvTest CaseNoFile; EvStat fp; EvTest CaseExistingFile; EvStat fp;
    EvTest CaseDirectoryIndexFile; EvStat fp;
    EvTest CaseDirectoryNoIndexFile; EvStat fp;
    EvTest CaseCGIFile; EvStat fp;
    EvTest CaseAlwaysFail; EvAct CaseAlwaysFail],
   Raise (ServerException ("Unknown object " ++ squote ++ path self ++ squote))).
Proof.
  intros Hstat.
  take_case [CaseNoFile; CaseExistingFile; CaseDirectoryIndexFile;
              CaseDirectoryNoIndexFile; CaseCGIFile] CaseAlwaysFail.
  - unfold tests_log, log; simpl. fold fp. rewrite ?Hstat. reflexivity.
  - intros c' [<-|[<-|[<-|[<-|[<-|[]]]]]]; unfold test_value; simpl; fold fp;
      rewrite ?Hstat; reflexivity.
  - reflexivity.
Qed.

End Chain.

(** ** Facts on [startswith], [endswith] and [os.path.join] *)

Lemma append_assoc (a c d : string) : (a ++ c) ++ d = a ++ (c ++ d).
Proof.
  induction a as [|x a IH]; simpl; [reflexivity|].
  rewrite IH; reflexivity.
Qed.

Lemma startswith_app (s pre rest : string) :
  startswith s pre = true -> startswith (s ++ rest) pre = true.
Proof.
  unfold startswith. revert s.
  induction pre as [|x pre IH]; intros [|y s] H; simpl in *;
    try reflexivity; try discriminate.
  - destruct rest; reflexivity.
  - destruct (ascii_dec x y); [apply IH; exact H | discriminate].
Qed.

Lemma endswith_eq (s suf : string) :
  endswith s suf =
  if String.eqb s suf then true
  else match s with
       | EmptyString => false
       | String _ s' => endswith s' suf
       end.
Proof. destruct s; reflexivity. Qed.

Lemma endswith_iff (s suf : string) :
  endswith s suf = true <-> exists pre, s = pre ++ suf.
Proof.
  induction s as [|x s IH]; rewrite endswith_eq.
  - destruct (String.eqb_spec EmptyString suf) as [<-|Hne].
    + split; [exists EmptyString; reflexivity | reflexivity].
    + split; [intros Hf; discriminate Hf|].
      intros [[|y pre] Heq]; simpl in Heq; [congruence | discriminate].
  - destruct (String.eqb_spec (String x s) suf) as [<-|Hne].
    + split; [exists EmptyString; reflexivity | reflexivity].
    + rewrite IH. split.
      * intros [pre ->]. exists (String x pre). reflexivity.
      * intros [[|y pre] Heq]; simpl in Heq; [congruence|].
        injection Heq as _ ->. exists pre. reflexivity.
Qed.

(** Two suffixes of one string: one is a suffix of the other. *)
Lemma endswith_comparable (s s1 s2 : string) :
  endswith s s1 = true -> endswith s s2 = true ->
  endswith s1 s2 = true \/ endswith s2 s1 = true.
Proof.
  rewrite !endswith_iff. intros [p1 H1] [p2 H2]. subst s.
  revert p2 H2.
  induction p1 as [|x p1 IH]; intros p2 H2; simpl in H2.
  - left. exists p2. exact H2.
  - destruct p2 as [|y p2]; simpl in H2.
    + right. exists (String x p1). symmetry. exact H2.
    + injection H2 as _ H2. exact (IH p2 H2).
Qed.

Lemma endswith_exclusive (s s1 s2 : string) :
  endswith s1 s2 = false -> endswith s2 s1 = false ->
  endswith s s1 = true -> endswith s s2 = false.
Proof.
  intros H12 H21 H1.
  destruct (endswith s s2) eqn:H2; [|reflexivity].
  destruct (endswith_comparable s s1 s2 H1 H2); congruence.
Qed.

Lemma join_extends (a name : string) :
  startswith name "/" = false ->
  exists rest, PosixPath.join a name = a ++ rest.
Proof.
  intros Hname. unfold PosixPath.join, PosixPath.sep. rewrite Hname.
  destruct (String.eqb a EmptyString || endswith a "/"); eauto.
Qed.

(** ** The MIME type: one entry of the table per path *)

(** [p] ends with one suffix, so it does not end with [s2]. *)
Ltac not_suffix H s2 :=
  match type of H with
  | endswith ?p ?s1 = true =>
      rewrite (endswith_exclusive p s1 s2 eq_refl eq_refl H)
  end.

Lemma content_type_table (p ext type : string) :
  In (ext, type) MIME_TABLE ->
  endswith p ext = true ->
  content_type_of p = type.
Proof.
  unfold MIME_TABLE, content_type_of.
  intros [Heq|[Heq|[Heq|[Heq|[Heq|[Heq|[]]]]]]] H;
    injection Heq as <- <-.
  - rewrite H. reflexivity.
  - not_suffix H ".html". rewrite H. reflexivity.
  - not_suffix H ".html". not_suffix H ".css". rewrite H. reflexivity.
  - not_suffix H ".html". not_suffix H ".css". not_suffix H ".js".
    rewrite H. reflexivity.
  - not_suffix H ".html". not_suffix H ".css". not_suffix H ".js".
    not_suffix H ".png". rewrite H. reflexivity.
  - not_suffix H ".html". not_suffix H ".css". not_suffix H ".js".
    not_suffix H ".png". rewrite H, orb_true_r. reflexivity.
Qed.

Lemma content_type_default (p : string) :
  (forall ext type, In (ext, type) MIME_TABLE -> endswith p ext = false) ->
  content_type_of p = "text/plain".
Proof.
  intros H. unfold content_type_of.
  rewrite (H ".html" "text/html"), (H ".css" "text/css"),
    (H ".js" "application/javascript"), (H ".png" "image/png"),
    (H ".jpg" "image/jpeg"), (H ".jpeg" "image/jpeg");
    unfold MIME_TABLE; simpl; auto 10.
Qed.

Lemma content_type_py (p : string) :
  endswith p ".py" = true -> content_type_of p = "text/plain".
Proof.
  intros H. apply content_type_default.
  unfold MIME_TABLE.
  intros ext type [Heq|[Heq|[Heq|[Heq|[Heq|[Heq|[]]]]]]];
    injection Heq as <- <-;
    (eapply endswith_exclusive; [| |exact H]; reflexivity).
Qed.

(** ** [do_GET]: the three ways through its [try] *)

Section DoGet.

Variable w : world.
Variable self : handler.

Let resolved : handler := set_full_path self (resolve w self).

Lemma do_GET_try_root :
  path self = "/" ->
  do_GET_try w self = ([], Ok (Some (send_root_page self))).
Proof.
  intros Hpath. unfold do_GET_try. rewrite Hpath. reflexivity.
Qed.

Lemma do_GET_try_traversal :
  path self <> "/" ->
  startswith (resolve w self) (getcwd w) = false ->
  do_GET_try w self = ([], Raise (ServerException "Attempted directory traversal")).
Proof.
  intros Hpath Hout. unfold do_GET_try.
  apply String.eqb_neq in Hpath. rewrite Hpath.
  simpl full_path. fold (resolve w self). rewrite Hout. reflexivity.
Qed.

Lemma do_GET_try_chain :
  path self <> "/" ->
  startswith (resolve w self) (getcwd w) = true ->
  do_GET_try w self = run_cases w CASES resolved.
Proof.
  intros Hpath Hin. unfold do_GET_try.
  apply String.eqb_neq in Hpath. rewrite Hpath.
  simpl full_path. fold (resolve w self). rewrite Hin. reflexivity.
Qed.

(** The log of [do_GET] is the log of its [try]. *)
Lemma do_GET_log : fst (do_GET w self) = log (do_GET_try w self).
Proof.
  unfold do_GET. destruct (do_GET_try w self) as [t [r|[msg|msg|msg]]]; reflexivity.
Qed.


(** A path that does not even start with the working directory is
    refused before the file system is touched. *)
Lemma do_GET_rejects_outside_prefix :
  path self <> "/" ->
  startswith (resolve w self) (getcwd w) = false ->
  do_GET w self = ([], Some (handle_error self "Attempted directory traversal" 404)).
Proof.
  intros Hpath Hout. unfold do_GET.
  rewrite (do_GET_try_traversal Hpath Hout). reflexivity.
Qed.

End DoGet.

(** ** The traversal check *)

(** C1. The check of [do_GET] compares strings, not path components:
    with the server in [/srv], the request [/../srv2/secret] resolves to
    [/srv2/secret], which is neither [/srv] nor below it, and still
    passes.  The chain runs, calls [stat] and reads the file, and the
    response is the file of the sibling directory with status 200, not
    the traversal error. *)
Theorem traversal_check_passes_sibling_prefix :
  resolve site (get_request "/../srv2/secret") = "/srv2/secret"
  /\ within_root (getcwd site) "/srv2/secret" = false
  /\ do_GET site (get_request "/../srv2/secret") =
     ([EvTest CaseNoFile; EvStat "/srv2/secret";
       EvTest CaseExistingFile; EvStat "/srv2/secret";
       EvAct CaseExistingFile; EvOpen "/srv2/secret"],
      Some {| status := 200;
              resp_headers := [("Content-Type", "text/plain"); ("Content-Length", "10")];
              body := b "top secret" |})
  /\ snd (do_GET site (get_request "/../srv2/secret"))
     <> Some (handle_error (get_request "/../srv2/secret")
                "Attempted directory traversal" 404)
  /\ existsb is_system_event (fst (do_GET site (get_request "/../srv2/secret"))) = true.
Proof.
  repeat split; try reflexivity.
  vm_compute. discriminate.
Qed.

(** ** The root page *)

Lemma ROOT_PAGE_lines (self : handler) :
  ROOT_PAGE (date_time_string self) (fst (client_address self))
            (str_of_N (snd (client_address self))) (command self) (path self)
  = PyStr.join nl (root_page_lines self).
Proof.
  unfold ROOT_PAGE, root_page_lines, PyStr.join, String.concat.
  rewrite !append_assoc. reflexivity.
Qed.

(** C9. A GET request for the literal path [/] is answered with the
    information page: status 200, the HTML table with the rows date and
    time, client host, client port, command and path.  Its log is empty
    (no case is tested or run, nothing is asked of the system), and the
    answer is the same in every world: neither the traversal check nor
    the chain has a say. *)
Theorem root_path_gets_info_page (w : world) (self : handler) :
  path self = "/" ->
  do_GET w self =
    ([], Some {| status := 200;
                 resp_headers :=
                   [("Content-Type", "text/html");
                    ("Content-Length",
                     str_of_nat (List.length
                       (encode_utf8 (PyStr.join nl (root_page_lines self)))))];
                 body := encode_utf8 (PyStr.join nl (root_page_lines self)) |})
  /\ (forall w', do_GET w' self = do_GET w self).
Proof.
  intros Hpath.
  assert (Hroot : forall w0, do_GET w0 self = ([], Some (send_root_page self))).
  { intros w0. unfold do_GET. rewrite (do_GET_try_root w0 self Hpath). reflexivity. }
  split.
  - rewrite Hroot. unfold send_root_page, send_content.
    rewrite ROOT_PAGE_lines. reflexivity.
  - intros w'. rewrite !Hroot. reflexivity.
Qed.

Lemma root_path_gets_info_page_witness :
  path (get_request "/") = "/"
  /\ do_GET site (get_request "/") =
     ([], Some {| status := 200;
                  resp_headers :=
                    [("Content-Type", "text/html");
                     ("Content-Length",
                      str_of_nat (List.length
                        (encode_utf8 (PyStr.join nl (root_page_lines (get_request "/"))))))];
                  body := encode_utf8 (PyStr.join nl (root_page_lines (get_request "/"))) |})
  /\ (forall w', do_GET w' (get_request "/") = do_GET site (get_request "/")).
Proof.
  split; [reflexivity|].
  apply (root_path_gets_info_page site (get_request "/")).
  reflexivity.
Defined.

(** ** The script case is shadowed by the plain-file case *)

(** Splits on what [stat] says of the resolved path and of its
    [index.html], and rewrites the loop accordingly. *)
Ltac chain_cases w self :=
  let Hstat := fresh "Hstat" in
  let Hidx := fresh "Hidx" in
  destruct (os_stat w (full_path self)) as [[ | | ]|] eqn:Hstat;
  [ rewrite (chain_regular w self Hstat)
  | destruct (os_stat w (index_path self)) as [[ | | ]|] eqn:Hidx;
    [ rewrite (chain_dir_index w self Hstat Hidx)
    | rewrite (chain_dir_listing w self Hstat) by (rewrite Hidx; discriminate)
    | rewrite (chain_dir_listing w self Hstat) by (rewrite Hidx; discriminate)
    | rewrite (chain_dir_listing w self Hstat) by (rewrite Hidx; discriminate) ]
  | rewrite (chain_other w self Hstat)
  | rewrite (chain_not_found w self Hstat) ].

Lemma cgi_test_implies_file_test (w : world) (self : handler) :
  test_value w CaseCGIFile self = true -> test_value w CaseExistingFile self = true.
Proof.
  unfold test_value; simpl.
  destruct (os_stat w (full_path self)) as [[]|]; simpl; congruence.
Qed.

Lemma chain_never_runs_cgi (w : world) (self : handler) :
  ~ In (EvAct CaseCGIFile) (log (run_cases w CASES self))
  /\ (forall p, ~ In (EvSpawn p) (log (run_cases w CASES self))).
Proof.
  chain_cases w self; unfold log; simpl; split; try intros p;
    intuition discriminate.
Qed.


Lemma handle_file_readable (w : world) (self : handler) (p : string) (content : bytes) :
  open_read w p = IoOk content ->
  handle_file w self p =
  ([EvOpen p],
   Ok {| status := 200;
         resp_headers := [("Content-Type", content_type_of p);
                          ("Content-Length", str_of_nat (List.length content))];
         body := content |}).
Proof.
  intros Hread. unfold handle_file; simpl. rewrite Hread. reflexivity.
Qed.

Lemma handle_file_unreadable (w : world) (self : handler) (p : string) (msg : string) :
  open_read w p = IoError msg ->
  handle_file w self p = ([EvOpen p], Raise (ServerException ("Cannot read file: " ++ p))).
Proof.
  intros Hread. unfold handle_file; simpl. rewrite Hread. reflexivity.
Qed.

Lemma handle_file_fault (w : world) (self : handler) (p : string) (msg : string) :
  open_read w p = IoFault msg ->
  handle_file w self p = ([EvOpen p], Raise (PyException msg)).
Proof.
  intros Hread. unfold handle_file; simpl. rewrite Hread. reflexivity.
Qed.

(** C3. The script case never acts.  Its test (a regular file whose
    path ends in [.py]) implies the test of the plain-file case, which
    stands before it in [CASES]; so it is never the first match, the log
    of the chain and of [do_GET] holds neither its act nor the start of
    a process, and a regular file ending in [.py] goes through
    [handle_file]: when it can be read, its bytes are the response,
    with status 200 and type text/plain. *)
Theorem cgi_case_never_acts (w : world) (self : handler) :
  (test_value w CaseCGIFile self = true -> test_value w CaseExistingFile self = true)
  /\ first_match w self <> Some CaseCGIFile
  /\ ~ In (EvAct CaseCGIFile) (log (run_cases w CASES self))
  /\ (forall p, ~ In (EvSpawn p) (log (run_cases w CASES self)))
  /\ ~ In (EvAct CaseCGIFile) (fst (do_GET w self))
  /\ (forall p, ~ In (EvSpawn p) (fst (do_GET w self)))
  /\ (os_stat w (full_path self) = Some S_IFREG ->
      endswith (full_path self) ".py" = true ->
      test_value w CaseCGIFile self = true
      /\ first_match w self = Some CaseExistingFile
      /\ run_cases w CASES self =
         ([EvTest CaseNoFile; EvStat (full_path self);
           EvTest CaseExistingFile; EvStat (full_path self);
           EvAct CaseExistingFile; EvOpen (full_path self)],
          final (outcome (handle_file w self (full_path self))))
      /\ (forall content,
            open_read w (full_path self) = IoOk content ->
            outcome (run_cases w CASES self) =
            Ok (Some {| status := 200;
                        resp_headers :=
                          [("Content-Type", "text/plain");
                           ("Content-Length", str_of_nat (List.length content))];
                        body := content |}))).
Proof.
  split; [apply cgi_test_implies_file_test|].
  split.
  { unfold first_match, CASES; simpl.
    destruct (test_value w CaseNoFile self); [discriminate|].
    destruct (test_value w CaseExistingFile self) eqn:E2; [discriminate|].
    destruct (test_value w CaseDirectoryIndexFile self); [discriminate|].
    destruct (test_value w CaseDirectoryNoIndexFile self); [discriminate|].
    destruct (test_value w CaseCGIFile self) eqn:E5.
    - apply cgi_test_implies_file_test in E5. congruence.
    - destruct (test_value w CaseAlwaysFail self); discriminate. }
  split; [apply chain_never_runs_cgi|].
  split; [apply chain_never_runs_cgi|].
  assert (Hget : ~ In (EvAct CaseCGIFile) (fst (do_GET w self))
                 /\ (forall p, ~ In (EvSpawn p) (fst (do_GET w self)))).
  { rewrite do_GET_log.
    destruct (String.eqb_spec (path self) "/") as [Hroot|Hroot].
    { rewrite (do_GET_try_root w self Hroot). split; [|intros p]; intros []. }
    destruct (startswith (resolve w self) (getcwd w)) eqn:Hin.
    - rewrite (do_GET_try_chain w self Hroot Hin). apply chain_never_runs_cgi.
    - rewrite (do_GET_try_traversal w self Hroot Hin). split; [|intros p]; intros []. }
  split; [apply Hget|].
  split; [apply Hget|].
  intros Hstat Hpy.
  split.
  { unfold test_value; simpl. rewrite Hstat; simpl. exact Hpy. }
  split.
  { unfold first_match, test_value, CASES; simpl. rewrite Hstat. reflexivity. }
  split; [apply chain_regular; exact Hstat|].
  intros content Hread.
  rewrite (chain_regular w self Hstat).
  rewrite (handle_file_readable w self _ content Hread).
  rewrite (content_type_py _ Hpy). reflexivity.
Qed.

Lemma cgi_case_never_acts_witness :
  os_stat site (full_path hello_request) = Some S_IFREG
  /\ endswith (full_path hello_request) ".py" = true
  /\ open_read site (full_path hello_request) = IoOk (b "print('hello')")
  /\ test_value site CaseCGIFile hello_request = true
  /\ first_match site hello_request = Some CaseExistingFile
  /\ ~ In (EvAct CaseCGIFile) (fst (do_GET site (get_request "/hello.py")))
  /\ outcome (run_cases site CASES hello_request) =
     Ok (Some {| status := 200;
                 resp_headers := [("Content-Type", "text/plain");
                                  ("Content-Length", "14")];
                 body := b "print('hello')" |}).
Proof.
  destruct (cgi_case_never_acts site hello_request)
    as (_ & _ & _ & _ & _ & _ & Hpy).
  destruct (cgi_case_never_acts site (get_request "/hello.py"))
    as (_ & _ & _ & _ & Hact & _).
  destruct (Hpy eq_refl eq_refl) as (Htest & Hfirst & _ & Hserved).
  split; [reflexivity|].
  split; [reflexivity|].
  split; [reflexivity|].
  split; [exact Htest|].
  split; [exact Hfirst|].
  split; [exact Hact|].
  exact (Hserved (b "print('hello')") eq_refl).
Defined.

(** ** From the chain to the response of [do_GET] *)

Lemma startswith_refl (s : string) : startswith s s = true.
Proof.
  unfold startswith. induction s as [|x s IH]; simpl; [reflexivity|].
  destruct (ascii_dec x x); [exact IH | congruence].
Qed.

Lemma startswith_shorter (s pre more : string) :
  startswith s (pre ++ more) = true -> startswith s pre = true.
Proof.
  unfold startswith. revert s.
  induction pre as [|x pre IH]; intros [|y s] H; simpl in *;
    try reflexivity; try discriminate.
  destruct (ascii_dec x y); [apply IH; exact H | discriminate].
Qed.

(** A path within the root, as the specification words it, passes the
    check of [do_GET]. *)
Lemma within_root_startswith (root p : string) :
  within_root root p = true -> startswith p root = true.
Proof.
  unfold within_root. intros H. apply orb_true_iff in H as [H|H].
  - apply String.eqb_eq in H. subst p. apply startswith_refl.
  - destruct (endswith root "/"); [exact H|].
    exact (startswith_shorter _ _ _ H).
Qed.

Section Responses.

Variable w : world.
Variable self : handler.
Hypothesis Hpath : path self <> "/".
Hypothesis Hin : startswith (resolve w self) (getcwd w) = true.

Let resolved : handler := set_full_path self (resolve w self).

Lemma do_GET_chain :
  do_GET w self =
  (log (run_cases w CASES resolved),
   match outcome (run_cases w CASES resolved) with
   | Ok r => r
   | Raise (ServerException msg) => Some (handle_error self msg 404)
   | Raise e => Some (handle_error self ("Internal server error: " ++ str_exn e) 500)
   end).
Proof.
  unfold do_GET. rewrite (do_GET_try_chain w self Hpath Hin). fold resolved.
  destruct (run_cases w CASES resolved) as [t [r|[msg|msg|msg]]]; reflexivity.
Qed.

Lemma do_GET_regular_file :
  os_stat w (resolve w self) = Some S_IFREG ->
  do_GET w self =
  ([EvTest CaseNoFile; EvStat (resolve w self);
    EvTest CaseExistingFile; EvStat (resolve w self);
    EvAct CaseExistingFile; EvOpen (resolve w self)],
   match open_read w (resolve w self) with
   | IoOk content =>
       Some {| status := 200;
               resp_headers := [("Content-Type", content_type_of (resolve w self));
                                ("Content-Length", str_of_nat (List.length content))];
               body := content |}
   | IoError _ =>
       Some (handle_error self ("Cannot read file: " ++ resolve w self) 404)
   | IoFault msg =>
       Some (handle_error self ("Internal server error: " ++ msg) 500)
   end).
Proof.
  intros Hstat. rewrite do_GET_chain.
  rewrite (chain_regular w resolved Hstat). simpl full_path.
  destruct (open_read w (resolve w self)) as [content|msg|msg] eqn:Hread.
  - rewrite (handle_file_readable w resolved _ content Hread). reflexivity.
  - rewrite (handle_file_unreadable w resolved _ msg Hread). reflexivity.
  - rewrite (handle_file_fault w resolved _ msg Hread). reflexivity.
Qed.

Lemma do_GET_directory_index :
  os_stat w (resolve w self) = Some S_IFDIR ->
  os_stat w (PosixPath.join (resolve w self) "index.html") = Some S_IFREG ->
  snd (do_GET w self) =
  match open_read w (PosixPath.join (resolve w self) "index.html") with
  | IoOk content =>
      Some {| status := 200;
              resp_headers :=
                [("Content-Type",
                  content_type_of (PosixPath.join (resolve w self) "index.html"));
                 ("Content-Length", str_of_nat (List.length content))];
              body := content |}
  | IoError _ =>
      Some (handle_error self
              ("Cannot read file: " ++ PosixPath.join (resolve w self) "index.html") 404)
  | IoFault msg =>
      Some (handle_error self ("Internal server error: " ++ msg) 500)
  end.
Proof.
  intros Hstat Hidx. rewrite do_GET_chain.
  rewrite (chain_dir_index w resolved Hstat Hidx).
  unfold index_path; simpl full_path.
  destruct (open_read w (PosixPath.join (resolve w self) "index.html"))
    as [content|msg|msg] eqn:Hread.
  - rewrite (handle_file_readable w resolved _ content Hread). reflexivity.
  - rewrite (handle_file_unreadable w resolved _ msg Hread). reflexivity.
  - rewrite (handle_file_fault w resolved _ msg Hread). reflexivity.
Qed.

End Responses.

(** ** Plain files *)

(** C4, where it fails: [/srv/locked.txt] is an existing regular file
    under the root, but it cannot be opened; the response is the error
    page with status 404, not the file with status 200. *)
Lemma unreadable_file_gets_404 :
  resolve site (get_request "/locked.txt") = "/srv/locked.txt"
  /\ os_stat site "/srv/locked.txt" = Some S_IFREG
  /\ within_root (getcwd site) "/srv/locked.txt" = true
  /\ do_GET site (get_request "/locked.txt") =
     ([EvTest CaseNoFile; EvStat "/srv/locked.txt";
       EvTest CaseExistingFile; EvStat "/srv/locked.txt";
       EvAct CaseExistingFile; EvOpen "/srv/locked.txt"],
      Some (handle_error (get_request "/locked.txt")
              "Cannot read file: /srv/locked.txt" 404))
  /\ ~ (exists r, snd (do_GET site (get_request "/locked.txt")) = Some r
                  /\ status r = 200%N).
Proof.
  repeat split; try reflexivity.
  intros [r [Hr Hstatus]]. vm_compute in Hr.
  injection Hr as <-. discriminate Hstatus.
Qed.

(** C4, amended.  A GET request (other than the literal [/]) that
    resolves to an existing regular file under the root which can be
    opened and read is answered with status 200, the bytes of the file
    as body, and the type that the table gives for the suffix of the
    path: the entry of [MIME_TABLE] whose suffix ends the path, and
    text/plain when none does. *)
Theorem readable_file_is_served (w : world) (self : handler) (content : bytes) :
  path self <> "/" ->
  within_root (getcwd w) (resolve w self) = true ->
  os_stat w (resolve w self) = Some S_IFREG ->
  open_read w (resolve w self) = IoOk content ->
  do_GET w self =
    ([EvTest CaseNoFile; EvStat (resolve w self);
      EvTest CaseExistingFile; EvStat (resolve w self);
      EvAct CaseExistingFile; EvOpen (resolve w self)],
     Some {| status := 200;
             resp_headers := [("Content-Type", content_type_of (resolve w self));
                              ("Content-Length", str_of_nat (List.length content))];
             body := content |})
  /\ (forall ext type,
        In (ext, type) MIME_TABLE ->
        endswith (resolve w self) ext = true ->
        content_type_of (resolve w self) = type)
  /\ ((forall ext type, In (ext, type) MIME_TABLE -> endswith (resolve w self) ext = false) ->
      content_type_of (resolve w self) = "text/plain").
Proof.
  intros Hpath Hroot Hstat Hread.
  split; [|split].
  - rewrite (do_GET_regular_file w self Hpath (within_root_startswith _ _ Hroot) Hstat).
    rewrite Hread. reflexivity.
  - intros ext type. apply content_type_table.
  - apply content_type_default.
Qed.

Lemma readable_file_is_served_witness :
  do_GET site (get_request "/style.css") =
    ([EvTest CaseNoFile; EvStat "/srv/style.css";
      EvTest CaseExistingFile; EvStat "/srv/style.css";
      EvAct CaseExistingFile; EvOpen "/srv/style.css"],
     Some {| status := 200;
             resp_headers := [("Content-Type", "text/css"); ("Content-Length", "18")];
             body := b "body { margin: 0 }" |}).
Proof.
  exact (proj1 (readable_file_is_served site (get_request "/style.css")
                  (b "body { margin: 0 }")
                  ltac:(discriminate) eq_refl eq_refl eq_refl)).
Defined.

(** ** A directory with [index.html] *)

Lemma index_html_type (dir : string) :
  content_type_of (PosixPath.join dir "index.html") = "text/html".
Proof.
  apply (content_type_table _ ".html"); [left; reflexivity|].
  apply endswith_iff.
  unfold PosixPath.join, PosixPath.sep; simpl startswith.
  destruct (String.eqb dir EmptyString || endswith dir "/").
  - exists (dir ++ "index"). rewrite append_assoc. reflexivity.
  - exists (dir ++ "/index"). rewrite append_assoc. reflexivity.
Qed.

(** C7, where it fails.  The root directory [/srv] holds a readable
    [index.html], yet the request [/], which resolves to it, gets the
    information page, not the file.  And [/srv/private] holds an
    [index.html] that cannot be read: the request for the directory and
    the request for the file get error pages that name different
    paths. *)
Lemma directory_index_differs :
  (resolve site (get_request "/") = "/srv"
   /\ os_stat site "/srv" = Some S_IFDIR
   /\ os_stat site "/srv/index.html" = Some S_IFREG
   /\ resolve site (get_request "/index.html") = "/srv/index.html"
   /\ snd (do_GET site (get_request "/")) = Some (send_root_page (get_request "/"))
   /\ snd (do_GET site (get_request "/index.html")) =
      Some {| status := 200;
              resp_headers := [("Content-Type", "text/html"); ("Content-Length", "13")];
              body := b "<h1>home</h1>" |}
   /\ snd (do_GET site (get_request "/")) <> snd (do_GET site (get_request "/index.html")))
  /\
  (resolve site (get_request "/private") = "/srv/private"
   /\ os_stat site "/srv/private" = Some S_IFDIR
   /\ os_stat site "/srv/private/index.html" = Some S_IFREG
   /\ resolve site (get_request "/private/index.html") = "/srv/private/index.html"
   /\ snd (do_GET site (get_request "/private")) =
      Some (handle_error (get_request "/private")
              "Cannot read file: /srv/private/index.html" 404)
   /\ snd (do_GET site (get_request "/private/index.html")) =
      Some (handle_error (get_request "/private/index.html")
              "Cannot read file: /srv/private/index.html" 404)
   /\ snd (do_GET site (get_request "/private"))
      <> snd (do_GET site (get_request "/private/index.html"))).
Proof.
  repeat split; try reflexivity; vm_compute; discriminate.
Qed.

(** C7, amended.  Take a directory under the root that holds a regular
    file [index.html] which can be opened and read.  A GET request that
    resolves to the directory and a GET request that resolves to its
    [index.html], neither with the literal path [/], get the same
    response: status 200, type text/html, the bytes of the file. *)
Theorem directory_index_same_as_file
        (w : world) (dir_request file_request : handler) (content : bytes) :
  path dir_request <> "/" ->
  path file_request <> "/" ->
  within_root (getcwd w) (resolve w dir_request) = true ->
  os_stat w (resolve w dir_request) = Some S_IFDIR ->
  resolve w file_request = PosixPath.join (resolve w dir_request) "index.html" ->
  os_stat w (resolve w file_request) = Some S_IFREG ->
  open_read w (resolve w file_request) = IoOk content ->
  snd (do_GET w dir_request) = snd (do_GET w file_request)
  /\ snd (do_GET w dir_request) =
     Some {| status := 200;
             resp_headers := [("Content-Type", "text/html");
                              ("Content-Length", str_of_nat (List.length content))];
             body := content |}.
Proof.
  intros Hdir_path Hfile_path Hroot Hdir Hresolve Hfile Hread.
  assert (Hin : startswith (resolve w dir_request) (getcwd w) = true)
    by exact (within_root_startswith _ _ Hroot).
  assert (Hin' : startswith (resolve w file_request) (getcwd w) = true).
  { rewrite Hresolve.
    destruct (join_extends (resolve w dir_request) "index.html" eq_refl) as [rest ->].
    apply startswith_app. exact Hin. }
  assert (Hfile_response :
    snd (do_GET w file_request) =
    Some {| status := 200;
            resp_headers := [("Content-Type", "text/html");
                             ("Content-Length", str_of_nat (List.length content))];
            body := content |}).
  { rewrite (do_GET_regular_file w file_request Hfile_path Hin' Hfile).
    rewrite Hread, Hresolve, index_html_type. reflexivity. }
  rewrite Hresolve in Hfile, Hread.
  rewrite (do_GET_directory_index w dir_request Hdir_path Hin Hdir Hfile).
  rewrite Hread, index_html_type.
  split; [symmetry; exact Hfile_response | reflexivity].
Qed.

Lemma directory_index_same_as_file_witness :
  snd (do_GET site (get_request "/docs")) = snd (do_GET site (get_request "/docs/index.html"))
  /\ snd (do_GET site (get_request "/docs")) =
     Some {| status := 200;
             resp_headers := [("Content-Type", "text/html"); ("Content-Length", "13")];
             body := b "<h1>docs</h1>" |}.
Proof.
  exact (directory_index_same_as_file site
           (get_request "/docs") (get_request "/docs/index.html") (b "<h1>docs</h1>")
           ltac:(discriminate) ltac:(discriminate)
           eq_refl eq_refl eq_refl eq_refl eq_refl).
Defined.

(** ** The order of [sorted] *)

Lemma ascii_compare_refl (x : ascii) : Ascii.compare x x = Eq.
Proof. unfold Ascii.compare. apply N.compare_refl. Qed.

Lemma string_compare_refl (s : string) : String.compare s s = Eq.
Proof.
  induction s as [|x s IH]; simpl; [reflexivity|].
  rewrite ascii_compare_refl. exact IH.
Qed.

Lemma string_compare_lt_trans (s1 s2 s3 : string) :
  String.compare s1 s2 = Lt -> String.compare s2 s3 = Lt -> String.compare s1 s3 = Lt.
Proof.
  revert s2 s3.
  induction s1 as [|x s1 IH]; intros [|y s2] [|z s3]; simpl;
    try discriminate; try reflexivity.
  unfold Ascii.compare.
  destruct (N.compare_spec (N_of_ascii x) (N_of_ascii y)) as [Hxy|Hxy|Hxy];
    destruct (N.compare_spec (N_of_ascii y) (N_of_ascii z)) as [Hyz|Hyz|Hyz];
    try discriminate; intros H12 H23.
  - rewrite Hxy, Hyz, N.compare_refl. exact (IH _ _ H12 H23).
  - rewrite Hxy. apply N.compare_lt_iff in Hyz. rewrite Hyz. reflexivity.
  - rewrite <- Hyz. apply N.compare_lt_iff in Hxy. rewrite Hxy. reflexivity.
  - assert (Hxz : (N_of_ascii x < N_of_ascii z)%N) by lia.
    apply N.compare_lt_iff in Hxz. rewrite Hxz. reflexivity.
Qed.

Lemma str_le_iff (a c : string) :
  str_le a c <-> String.compare a c = Lt \/ a = c.
Proof.
  unfold str_le, String.leb. split.
  - destruct (String.compare a c) eqn:Hcmp; intros H; try discriminate.
    + right. apply String.compare_eq_iff. exact Hcmp.
    + left. reflexivity.
  - intros [->| ->]; [reflexivity|].
    rewrite string_compare_refl. reflexivity.
Qed.

Lemma str_le_trans (a c d : string) : str_le a c -> str_le c d -> str_le a d.
Proof.
  rewrite !str_le_iff.
  intros [H1| ->] [H2| ->]; auto.
  left. exact (string_compare_lt_trans _ _ _ H1 H2).
Qed.

Lemma sorted_StronglySorted (names : list string) :
  StronglySorted str_le (sorted names).
Proof.
  apply Sorted_StronglySorted.
  - intros a c d. apply str_le_trans.
  - exact (StrSort.Sorted_sort names).
Qed.

Lemma sorted_Permutation (names : list string) : Permutation names (sorted names).
Proof. apply StrSort.Permuted_sort. Qed.




(** ** Directory listings *)



(** ** Error pages *)





(** ** POST *)

(** C8. A POST request whose Content-Length header gives the length of
    its body [data] is answered with status 200, type text/plain and
    the bytes of [Received: ] followed by [data]; what follows the body
    in the stream stays unread. *)
Theorem post_echoes_body (self : handler) (v : string) (data rest : bytes) :
  headers_get (headers self) "Content-Length" = Some v ->
  int_of_str v = Some (Z.of_nat (List.length data)) ->
  rfile self = (data ++ rest)%list ->
  do_POST self =
  ({| status := 200;
      resp_headers := [("Content-Type", "text/plain");
                       ("Content-Length", str_of_nat (10 + List.length data))];
      body := (b "Received: " ++ data)%list |},
   rest).
Proof.
  intros Hget Hint Hstream. unfold do_POST. rewrite Hget, Hint, Hstream.
  unfold rfile_read.
  destruct (Z.ltb_spec (Z.of_nat (List.length data)) 0) as [Hneg|_]; [lia|].
  rewrite Nat2Z.id, firstn_app, skipn_app, Nat.sub_diag, firstn_all, skipn_all.
  simpl firstn; simpl skipn. rewrite app_nil_r. reflexivity.
Qed.

Lemma post_echoes_body_witness :
  do_POST (post_request [("Host", "localhost:8000"); ("content-length", "5")] (b "hello")) =
  ({| status := 200;
      resp_headers := [("Content-Type", "text/plain"); ("Content-Length", "15")];
      body := b "Received: hello" |},
   []).
Proof.
  exact (post_echoes_body
           (post_request [("Host", "localhost:8000"); ("content-length", "5")] (b "hello"))
           "5" (b "hello") [] eq_refl eq_refl eq_refl).
Defined.

(** C10. A POST request with no Content-Length header, or with one
    that reads as zero, does not fail: nothing is read from the stream
    and the response has status 200 and the body [Received: ]. *)
Theorem post_without_length (self : handler) :
  headers_get (headers self) "Content-Length" = None
  \/ (exists v, headers_get (headers self) "Content-Length" = Some v
                /\ int_of_str v = Some 0%Z) ->
  do_POST self =
  ({| status := 200;
      resp_headers := [("Content-Type", "text/plain"); ("Content-Length", "10")];
      body := b "Received: " |},
   rfile self).
Proof.
  intros [Hget|[v [Hget Hint]]]; unfold do_POST; rewrite Hget; try rewrite Hint;
    unfold rfile_read; simpl; reflexivity.
Qed.

Lemma post_without_length_witness :
  do_POST (post_request [("Host", "localhost:8000")] (b "hello")) =
    ({| status := 200;
        resp_headers := [("Content-Type", "text/plain"); ("Content-Length", "10")];
        body := b "Received: " |},
     b "hello")
  /\ do_POST (post_request [("Content-Length", "0")] []) =
    ({| status := 200;
        resp_headers := [("Content-Type", "text/plain"); ("Content-Length", "10")];
        body := b "Received: " |},
     []).
Proof.
  split.
  - exact (post_without_length (post_request [("Host", "localhost:8000")] (b "hello"))
             (or_introl eq_refl)).
  - exact (post_without_length (post_request [("Content-Length", "0")] [])
             (or_intror (ex_intro _ "0" (conj eq_refl eq_refl)))).
Defined.

(** * Further properties of the program *)

(** ** The case that acts *)

(** X1. Which case acts is decided by [stat] alone: nothing at the
    path, the not-found case; a regular file, the plain-file case; a
    directory, the index case when its [index.html] is a regular file
    and the listing case otherwise; anything else, the fallback.  That
    case is the first match, the only one whose act the loop logs, and
    its outcome is the outcome of the loop. *)
Theorem dispatch_by_stat (w : world) (self : handler) :
  first_match w self = Some (case_by_stat w self)
  /\ (forall c, In (EvAct c) (log (run_cases w CASES self)) <-> c = case_by_stat w self)
  /\ outcome (run_cases w CASES self) = final (outcome (act w (case_by_stat w self) self)).
Proof.
  unfold case_by_stat, first_match, test_value, CASES.
  split; [|split].
  - simpl.
    destruct (os_stat w (full_path self)) as [[ | | ]|]; simpl; try reflexivity.
    destruct (os_stat w (index_path self)) as [[ | | ]|]; reflexivity.
  - intros c. fold CASES.
    chain_cases w self; unfold log; simpl; split;
      try (intros ->; tauto);
      intros H; repeat (destruct H as [H|H]; try discriminate H);
      try contradiction; try (injection H as <-; reflexivity).
  - fold CASES. chain_cases w self; reflexivity.
Qed.

(** ** What a request touches *)


(** X3. Every system call of a GET request is about the resolved path
    or about [index.html] joined to it, and both start with the working
    directory: the request calls [stat], opens or lists nothing else,
    and starts no process. *)
Theorem touched_paths_are_resolved (w : world) (self : handler) (ev : event) (p : string) :
  In ev (fst (do_GET w self)) ->
  event_path ev = Some p ->
  (p = resolve w self \/ p = PosixPath.join (resolve w self) "index.html")
  /\ startswith p (getcwd w) = true
  /\ ev <> EvSpawn p.
Proof.
  rewrite do_GET_log.
  destruct (String.eqb_spec (path self) "/") as [Hroot|Hroot].
  { rewrite (do_GET_try_root w self Hroot). intros []. }
  destruct (startswith (resolve w self) (getcwd w)) eqn:Hin.
  2:{ rewrite (do_GET_try_traversal w self Hroot Hin). intros []. }
  rewrite (do_GET_try_chain w self Hroot Hin).
  assert (Hidx : startswith (PosixPath.join (resolve w self) "index.html") (getcwd w) = true).
  { destruct (join_extends (resolve w self) "index.html" eq_refl) as [rest ->].
    apply startswith_app. exact Hin. }
  intros Hev Hp.
  assert (Hwhich : ev = EvStat (resolve w self)
                   \/ ev = EvStat (PosixPath.join (resolve w self) "index.html")
                   \/ ev = EvOpen (resolve w self)
                   \/ ev = EvOpen (PosixPath.join (resolve w self) "index.html")
                   \/ ev = EvListdir (resolve w self)).
  { revert Hev.
    chain_cases w (set_full_path self (resolve w self));
      unfold log, index_path; simpl; intros H;
      repeat (destruct H as [H|H]; [subst ev; try discriminate Hp; tauto|]);
      contradiction. }
  destruct Hwhich as [->|[->|[->|[->| ->]]]]; simpl in Hp; injection Hp as <-;
    (split; [tauto | split; [assumption | discriminate]]).
Qed.

Lemma touched_paths_are_resolved_witness :
  In (EvOpen "/srv/docs/index.html") (fst (do_GET site (get_request "/docs")))
  /\ ("/srv/docs/index.html" = resolve site (get_request "/docs")
      \/ "/srv/docs/index.html"
         = PosixPath.join (resolve site (get_request "/docs")) "index.html")
  /\ startswith "/srv/docs/index.html" (getcwd site) = true
  /\ EvOpen "/srv/docs/index.html" <> EvSpawn "/srv/docs/index.html".
Proof.
  assert (Hin : In (EvOpen "/srv/docs/index.html") (fst (do_GET site (get_request "/docs")))).
  { vm_compute. tauto. }
  split; [exact Hin|].
  exact (touched_paths_are_resolved site (get_request "/docs")
           (EvOpen "/srv/docs/index.html") "/srv/docs/index.html" Hin eq_refl).
Defined.

(** ** The shape of every response *)

Lemma send_content_length (content : bytes) :
  status (send_content content) = 200%N /\ length_header_matches (send_content content).
Proof. split; [reflexivity|]. eexists; reflexivity. Qed.

Lemma handle_error_length (self : handler) (msg : string) (st : N) :
  length_header_matches (handle_error self msg st).
Proof. eexists; reflexivity. Qed.

(** The three kinds of response [do_GET] writes. *)
Lemma do_GET_shape (w : world) (self : handler) :
  exists r,
    snd (do_GET w self) = Some r
    /\ ((status r = 200%N /\ length_header_matches r)
        \/ (exists msg, r = handle_error self msg 404)
        \/ (exists msg p,
              (open_read w p = IoFault msg \/ os_listdir w p = IoFault msg)
              /\ r = handle_error self ("Internal server error: " ++ msg) 500)).
Proof.
  destruct (String.eqb_spec (path self) "/") as [Hroot|Hroot].
  { unfold do_GET. rewrite (do_GET_try_root w self Hroot). simpl.
    eexists; split; [reflexivity|]. left. apply send_content_length. }
  destruct (startswith (resolve w self) (getcwd w)) eqn:Hin.
  2:{ rewrite (do_GET_rejects_outside_prefix w self Hroot Hin). simpl.
      eexists; split; [reflexivity|]. right; left. eexists; reflexivity. }
  rewrite (do_GET_chain w self Hroot Hin).
  chain_cases w (set_full_path self (resolve w self)); simpl snd.
  - simpl full_path.
    destruct (open_read w (resolve w self)) as [content|msg|msg] eqn:Hread.
    + rewrite (handle_file_readable w _ _ content Hread).
      eexists; split; [reflexivity|]. left. split; [reflexivity|]. eexists; reflexivity.
    + rewrite (handle_file_unreadable w _ _ msg Hread).
      eexists; split; [reflexivity|]. right; left. eexists; reflexivity.
    + rewrite (handle_file_fault w _ _ msg Hread).
      eexists; split; [reflexivity|]. right; right. exists msg, (resolve w self). auto.
  - set (idx := index_path (set_full_path self (resolve w self))).
    destruct (open_read w idx) as [content|msg|msg] eqn:Hread.
    + rewrite (handle_file_readable w _ _ content Hread).
      eexists; split; [reflexivity|]. left. split; [reflexivity|]. eexists; reflexivity.
    + rewrite (handle_file_unreadable w _ _ msg Hread).
      eexists; split; [reflexivity|]. right; left. eexists; reflexivity.
    + rewrite (handle_file_fault w _ _ msg Hread).
      eexists; split; [reflexivity|]. right; right. exists msg, idx. auto.
  - unfold list_dir; simpl.
    destruct (os_listdir w (resolve w self)) as [names|msg|msg] eqn:Hlist; simpl;
      eexists; (split; [reflexivity|]).
    + left. apply send_content_length.
    + right; left. eexists; reflexivity.
    + right; right. exists msg, (resolve w self). auto.
  - unfold list_dir; simpl.
    destruct (os_listdir w (resolve w self)) as [names|msg|msg] eqn:Hlist; simpl;
      eexists; (split; [reflexivity|]).
    + left. apply send_content_length.
    + right; left. eexists; reflexivity.
    + right; right. exists msg, (resolve w self). auto.
  - unfold list_dir; simpl.
    destruct (os_listdir w (resolve w self)) as [names|msg|msg] eqn:Hlist; simpl;
      eexists; (split; [reflexivity|]).
    + left. apply send_content_length.
    + right; left. eexists; reflexivity.
    + right; right. exists msg, (resolve w self). auto.
  - eexists; split; [reflexivity|]. right; left. eexists; reflexivity.
  - eexists; split; [reflexivity|]. right; left. eexists; reflexivity.
Qed.

(** X4. Every response the program writes carries exactly two headers,
    a Content-Type and a Content-Length that is the decimal length of
    the body it sends: the responses of [do_GET] and [do_POST], and
    those of [run_cgi] and of [BaseCase.handle_file], which no case
    reaches. *)
Theorem responses_carry_their_length (w : world) (self : handler) :
  (forall r, snd (do_GET w self) = Some r -> length_header_matches r)
  /\ length_header_matches (fst (do_POST self))
  /\ (forall p r, outcome (run_cgi w self p) = Ok r -> length_header_matches r)
  /\ (forall p r, outcome (BaseCase_handle_file w self p) = Ok r -> length_header_matches r).
Proof.
  split; [|split; [|split]].
  - intros r Hr.
    destruct (do_GET_shape w self) as (r' & Hr' & Hshape).
    rewrite Hr in Hr'. injection Hr' as <-.
    destruct Hshape as [[_ H]|[[msg ->]|(msg & p & _ & ->)]];
      [exact H | apply handle_error_length | apply handle_error_length].
  - unfold do_POST.
    destruct (headers_get (headers self) "Content-Length") as [v|];
      [destruct (int_of_str v) as [n|]|];
      try apply handle_error_length;
      destruct (rfile_read _ (rfile self)) as [data rest]; eexists; reflexivity.
  - intros p r. unfold run_cgi; simpl.
    destruct (subprocess_run w p); simpl; intros Hr; injection Hr as <-;
      [apply send_content_length | apply handle_error_length | apply handle_error_length].
  - intros p r. unfold BaseCase_handle_file; simpl.
    destruct (open_read w p); simpl; intros Hr; try discriminate Hr; injection Hr as <-;
      [apply send_content_length | apply handle_error_length].
Qed.


(** ** What the prefix check lets through *)

Lemma startswith_iff (s pre : string) :
  startswith s pre = true <-> exists rest, s = pre ++ rest.
Proof.
  unfold startswith. revert s.
  induction pre as [|x pre IH]; intros s.
  - split; [intros _; exists s; reflexivity|]. intros _. destruct s; reflexivity.
  - destruct s as [|y s]; simpl.
    + split; [discriminate|]. intros [rest H]. discriminate H.
    + destruct (ascii_dec x y) as [->|Hne].
      * rewrite IH. split; intros [rest H]; exists rest; [rewrite H; reflexivity|].
        injection H as ->. reflexivity.
      * split; [discriminate|]. intros [rest H]. injection H as H _. congruence.
Qed.

Lemma append_cancel_l (a s t : string) : a ++ s = a ++ t -> s = t.
Proof.
  induction a as [|x a IH]; simpl; intros H; [exact H|].
  injection H as H. exact (IH H).
Qed.

Lemma append_eq_self (a s : string) : a ++ s = a -> s = EmptyString.
Proof.
  induction a as [|x a IH]; simpl; intros H; [exact H|].
  injection H as H. exact (IH H).
Qed.

(** The prefix test and containment: the paths that pass the test
    and lie outside the root are those that continue the root's name
    with a character other than the separator. *)
Lemma prefix_check_gap (root p : string) :
  (startswith p root = true <-> exists rest, p = root ++ rest)
  /\ (startswith p root = true /\ within_root root p = false
      <-> endswith root "/" = false
          /\ exists c rest, p = root ++ String c rest /\ c <> "/"%char).
Proof.
  split; [apply startswith_iff|].
  unfold within_root. split.
  - intros [Hpre Hout]. apply orb_false_iff in Hout as [Hne Hbelow].
    apply String.eqb_neq in Hne.
    apply startswith_iff in Hpre as [rest ->].
    destruct (endswith root "/") eqn:Hslash.
    { assert (H : startswith (root ++ rest) root = true)
        by (apply startswith_iff; eauto).
      congruence. }
    split; [reflexivity|].
    destruct rest as [|c rest].
    { exfalso. apply Hne. clear. induction root as [|x root IH]; simpl; congruence. }
    exists c, rest. split; [reflexivity|].
    intros ->.
    assert (H : startswith (root ++ String "/" rest) (root ++ "/") = true).
    { apply startswith_iff. exists rest. rewrite append_assoc. reflexivity. }
    congruence.
  - intros (Hslash & c & rest & -> & Hc). rewrite Hslash.
    split; [apply startswith_iff; eauto|].
    apply orb_false_iff. split.
    + apply String.eqb_neq. intros H. apply append_eq_self in H. discriminate H.
    + destruct (startswith (root ++ String c rest) (root ++ "/")) eqn:H; [|reflexivity].
      apply startswith_iff in H as [rest' H].
      rewrite append_assoc in H. apply append_cancel_l in H.
      simpl in H. injection H as H _. congruence.
Qed.

Lemma chain_log_nonempty (w : world) (self : handler) :
  log (run_cases w CASES self) <> [].
Proof.
  chain_cases w self; discriminate.
Qed.

(** X6. The check of [do_GET] compares prefixes of strings.  A request
    (not for the literal [/]) whose resolved path is neither the
    working directory nor below it still reaches the file system
    exactly when that path continues the directory's name with a
    character other than the separator, as a sibling whose name
    extends the directory's does; every other outside path is refused
    untouched. *)
Theorem outside_root_reaches_system_iff (w : world) (self : handler) :
  path self <> "/" ->
  within_root (getcwd w) (resolve w self) = false ->
  (fst (do_GET w self) <> []
   <-> endswith (getcwd w) "/" = false
       /\ exists c rest, resolve w self = getcwd w ++ String c rest /\ c <> "/"%char)
  /\ (fst (do_GET w self) = [] ->
      snd (do_GET w self) = Some (handle_error self "Attempted directory traversal" 404)).
Proof.
  intros Hpath Hout.
  destruct (prefix_check_gap (getcwd w) (resolve w self)) as [_ Hgap].
  destruct (startswith (resolve w self) (getcwd w)) eqn:Hin.
  - assert (Hlog : fst (do_GET w self) <> []).
    { rewrite do_GET_log, (do_GET_try_chain w self Hpath Hin).
      apply chain_log_nonempty. }
    split; [|intros H; contradiction].
    split; [intros _; apply Hgap; auto | intros _; exact Hlog].
  - rewrite (do_GET_rejects_outside_prefix w self Hpath Hin). simpl.
    split; [|reflexivity].
    split; [intros H; exfalso; apply H; reflexivity|].
    intros H. apply Hgap in H as [H _]. discriminate H.
Qed.

Lemma outside_root_reaches_system_iff_witness :
  within_root (getcwd site) (resolve site (get_request "/../srv2/secret")) = false
  /\ (fst (do_GET site (get_request "/../srv2/secret")) <> []
      <-> endswith (getcwd site) "/" = false
          /\ exists c rest,
               resolve site (get_request "/../srv2/secret") = getcwd site ++ String c rest
               /\ c <> "/"%char)
  /\ (fst (do_GET site (get_request "/../srv2/secret")) = [] ->
      snd (do_GET site (get_request "/../srv2/secret")) =
      Some (handle_error (get_request "/../srv2/secret")
              "Attempted directory traversal" 404)).
Proof.
  split; [reflexivity|].
  exact (outside_root_reaches_system_iff site (get_request "/../srv2/secret")
           ltac:(discriminate) eq_refl).
Defined.

(** ** The resolved path is normalized *)

Lemma split_no_sep (sep : ascii) (s : string) :
  Forall (fun comp => has_char sep comp = false) (split sep s).
Proof.
  induction s as [|x s IH]; simpl.
  - repeat constructor.
  - destruct (Ascii.eqb x sep) eqn:Hx.
    + constructor; [reflexivity | exact IH].
    + destruct (split sep s) as [|comp comps].
      * repeat constructor. simpl. rewrite Hx. reflexivity.
      * inversion IH as [|? ? Hcomp Hcomps]; subst.
        constructor; [|exact Hcomps]. simpl. rewrite Hx. exact Hcomp.
Qed.

Lemma split_one (sep : ascii) (comp : string) :
  has_char sep comp = false -> split sep comp = [comp].
Proof.
  induction comp as [|x comp IH]; simpl; [reflexivity|].
  intros H. apply orb_false_iff in H as [Hx Hrest].
  rewrite Hx, (IH Hrest). reflexivity.
Qed.

Lemma split_app_sep (sep : ascii) (comp rest : string) :
  has_char sep comp = false ->
  split sep (comp ++ String sep rest) = comp :: split sep rest.
Proof.
  induction comp as [|x comp IH]; simpl.
  - intros _. rewrite Ascii.eqb_refl. reflexivity.
  - intros H. apply orb_false_iff in H as [Hx Hrest].
    rewrite Hx, (IH Hrest). reflexivity.
Qed.

(** Splitting what was joined gives the components back. *)
Lemma split_join (comps : list string) :
  comps <> [] ->
  Forall (fun comp => has_char "/"%char comp = false) comps ->
  split "/"%char (PyStr.join "/" comps) = comps.
Proof.
  unfold PyStr.join.
  induction comps as [|comp comps IH]; [congruence|].
  intros _ Hall. inversion Hall as [|? ? Hcomp Hcomps]; subst.
  destruct comps as [|comp' comps].
  - simpl. apply split_one. exact Hcomp.
  - change (String.concat "/" (comp :: comp' :: comps))
      with (comp ++ String "/"%char (String.concat "/" (comp' :: comps))).
    rewrite (split_app_sep _ _ _ Hcomp), IH; [reflexivity | discriminate | exact Hcomps].
Qed.

Lemma last_In {A} (l : list A) (d : A) : l <> [] -> In (last l d) l.
Proof.
  induction l as [|x l IH]; [congruence|].
  intros _. destruct l as [|y l]; [left; reflexivity|].
  right. apply IH. discriminate.
Qed.

Lemma Forall_removelast {A} (P : A -> Prop) (l : list A) :
  Forall P l -> Forall P (removelast l).
Proof.
  induction 1 as [|x l Hx Hl IH]; simpl; [constructor|].
  destruct l; constructor; assumption.
Qed.

(** With a leading slash, the loop of [normpath] keeps its components
    clean. *)
Lemma normpath_step_clean (initial_slashes : nat) (new_comps : list string) (comp : string) :
  initial_slashes <> 0 ->
  has_char "/"%char comp = false ->
  Forall clean_component new_comps ->
  Forall clean_component (PosixPath.normpath_step initial_slashes new_comps comp).
Proof.
  intros Hslashes Hcomp Hclean. unfold PosixPath.normpath_step.
  destruct (String.eqb_spec comp EmptyString) as [|Hne]; [exact Hclean|].
  destruct (String.eqb_spec comp PosixPath.dot) as [|Hnd]; [exact Hclean|].
  simpl orb.
  destruct (negb (String.eqb comp PosixPath.dotdot)
            || Nat.eqb initial_slashes 0 && Nat.eqb (List.length new_comps) 0
            || negb (Nat.eqb (List.length new_comps) 0)
               && String.eqb (last new_comps EmptyString) PosixPath.dotdot) eqn:Hcond.
  - apply Forall_app. split; [exact Hclean|].
    constructor; [|constructor].
    repeat split; try assumption.
    intros ->. simpl in Hcond.
    apply Nat.eqb_neq in Hslashes. rewrite Hslashes in Hcond. simpl in Hcond.
    apply andb_true_iff in Hcond as [Hnonempty Hlast].
    apply String.eqb_eq in Hlast.
    assert (Hin : In (last new_comps EmptyString) new_comps).
    { apply last_In. intros ->. discriminate Hnonempty. }
    rewrite Forall_forall in Hclean. apply Hclean in Hin.
    destruct Hin as (_ & _ & Hdd & _). exact (Hdd Hlast).
  - destruct (negb (Nat.eqb (List.length new_comps) 0));
      [apply Forall_removelast|]; exact Hclean.
Qed.

Lemma normpath_fold_clean (initial_slashes : nat) (comps new_comps : list string) :
  initial_slashes <> 0 ->
  Forall (fun comp => has_char "/"%char comp = false) comps ->
  Forall clean_component new_comps ->
  Forall clean_component
    (fold_left (PosixPath.normpath_step initial_slashes) comps new_comps).
Proof.
  intros Hslashes Hcomps. revert new_comps.
  induction Hcomps as [|comp comps Hcomp Hcomps IH]; intros new_comps Hclean; simpl.
  - exact Hclean.
  - apply IH. apply normpath_step_clean; assumption.
Qed.

(** [normpath] of an absolute path: one or two slashes, then clean
    components joined by slashes. *)
Lemma normpath_absolute (p : string) :
  startswith p "/" = true ->
  exists slashes comps,
    PosixPath.normpath p = slashes ++ PyStr.join "/" comps
    /\ (slashes = "/" \/ slashes = "//")
    /\ Forall clean_component comps.
Proof.
  intros Habs. unfold PosixPath.normpath, PosixPath.sep.
  destruct p as [|x p]; [discriminate Habs|].
  change (String.eqb (String x p) EmptyString) with false. cbv iota.
  rewrite Habs.
  set (initial_slashes :=
         if startswith (String x p) (repeat_str "/" 2)
            && negb (startswith (String x p) (repeat_str "/" 3))
         then 2 else 1).
  assert (Hslashes : initial_slashes <> 0).
  { unfold initial_slashes. destruct (_ && _); discriminate. }
  set (new_comps :=
         fold_left (PosixPath.normpath_step initial_slashes)
                   (split "/"%char (String x p)) []).
  assert (Hclean : Forall clean_component new_comps).
  { apply normpath_fold_clean; [exact Hslashes | apply split_no_sep | constructor]. }
  apply Nat.eqb_neq in Hslashes as Hnz. rewrite Hnz.
  exists (repeat_str "/" initial_slashes), new_comps.
  assert (Hprefix : repeat_str "/" initial_slashes = "/"
                    \/ repeat_str "/" initial_slashes = "//").
  { unfold initial_slashes. destruct (_ && _); simpl; auto. }
  split; [|split; assumption].
  destruct Hprefix as [-> | ->]; reflexivity.
Qed.

(** X7. When the working directory is absolute, the path [do_GET]
    resolves is normalized: one or two slashes followed by components
    joined by single slashes, none of them empty, [.] or [..].  No
    [..] of the request path survives in the path that is tested and
    opened. *)
Theorem resolved_path_is_normalized (w : world) (self : handler) :
  startswith (getcwd w) "/" = true ->
  (exists slashes comps,
     resolve w self = slashes ++ PyStr.join "/" comps
     /\ (slashes = "/" \/ slashes = "//")
     /\ Forall clean_component comps)
  /\ startswith (resolve w self) "/" = true
  /\ ~ In ".." (split "/"%char (resolve w self))
  /\ ~ In "." (split "/"%char (resolve w self)).
Proof.
  intros Hcwd.
  assert (Habs : startswith (getcwd w ++ path self) "/" = true)
    by (apply startswith_app; exact Hcwd).
  assert (Hresolve : resolve w self = PosixPath.normpath (getcwd w ++ path self)).
  { unfold resolve, PosixPath.abspath, PosixPath.isabs, PosixPath.sep.
    rewrite Habs. reflexivity. }
  destruct (normpath_absolute _ Habs) as (slashes & comps & Heq & Hslashes & Hclean).
  rewrite Hresolve, Heq.
  split; [exists slashes, comps; auto|].
  split; [destruct Hslashes as [-> | ->]; apply startswith_iff; eexists; reflexivity|].
  assert (Hsplit : forall bad, bad <> EmptyString -> ~ clean_component bad ->
                   ~ In bad (split "/"%char (slashes ++ PyStr.join "/" comps))).
  { intros bad Hne Hbad Hin.
    assert (Htail : In bad (split "/"%char (PyStr.join "/" comps))).
    { destruct Hslashes as [-> | ->]; simpl in Hin;
        repeat (destruct Hin as [Hin|Hin]; [congruence|]); exact Hin. }
    destruct comps as [|comp comps].
    - simpl in Htail. destruct Htail as [Htail|[]]. congruence.
    - rewrite split_join in Htail.
      + rewrite Forall_forall in Hclean. exact (Hbad (Hclean bad Htail)).
      + discriminate.
      + eapply Forall_impl; [|exact Hclean]. intros c (_ & _ & _ & Hc). exact Hc. }
  split; apply Hsplit; try discriminate; intros (_ & Hd & Hdd & _); congruence.
Qed.

Lemma resolved_path_is_normalized_witness :
  resolve site (get_request "/docs/../pub/./a.txt") = "/srv/pub/a.txt"
  /\ startswith (resolve site (get_request "/docs/../pub/./a.txt")) "/" = true
  /\ ~ In ".." (split "/"%char (resolve site (get_request "/docs/../pub/./a.txt")))
  /\ ~ In "." (split "/"%char (resolve site (get_request "/docs/../pub/./a.txt"))).
Proof.
  split; [reflexivity|].
  exact (proj2 (resolved_path_is_normalized site
                  (get_request "/docs/../pub/./a.txt") eq_refl)).
Defined.

(** ** The listing does not depend on the order of [os.listdir] *)

Lemma str_le_antisym (a c : string) : str_le a c -> str_le c a -> a = c.
Proof. apply String.leb_antisym. Qed.

(** A sorted list is determined by its elements. *)
Lemma StronglySorted_unique (l1 l2 : list string) :
  StronglySorted str_le l1 -> StronglySorted str_le l2 ->
  Permutation l1 l2 -> l1 = l2.
Proof.
  intros H1. revert l2.
  induction H1 as [|x l1 Hsorted1 IH Hall1]; intros l2 H2 Hperm.
  - apply Permutation_nil in Hperm. congruence.
  - destruct H2 as [|y l2 Hsorted2 Hall2].
    { apply Permutation_sym, Permutation_nil in Hperm. discriminate. }
    assert (Hxy : x = y).
    { assert (Hx : In x (y :: l2))
        by (apply (Permutation_in _ Hperm); left; reflexivity).
      assert (Hy : In y (x :: l1))
        by (apply (Permutation_in _ (Permutation_sym Hperm)); left; reflexivity).
      rewrite Forall_forall in Hall1, Hall2.
      destruct Hx as [Hx|Hx]; [congruence|].
      destruct Hy as [Hy|Hy]; [congruence|].
      apply str_le_antisym; [exact (Hall1 y Hy) | exact (Hall2 x Hx)]. }
    subst y. f_equal. apply IH; [exact Hsorted2|].
    exact (Permutation_cons_inv Hperm).
Qed.

Lemma sorted_of_Permutation (names names' : list string) :
  Permutation names names' -> sorted names = sorted names'.
Proof.
  intros Hperm. apply StronglySorted_unique; try apply sorted_StronglySorted.
  transitivity names; [apply Permutation_sym, sorted_Permutation|].
  transitivity names'; [exact Hperm | apply sorted_Permutation].
Qed.

(** X8. The listing of a directory does not depend on the order in
    which [os.listdir] returns the names: two file systems that list
    the same names for a directory, in whatever order, get the same
    page from [list_dir]. *)
Theorem listing_ignores_listdir_order
        (w w' : world) (self : handler) (p : string) (names names' : list string) :
  os_listdir w p = IoOk names ->
  os_listdir w' p = IoOk names' ->
  Permutation names names' ->
  outcome (list_dir w self p) = outcome (list_dir w' self p)
  /\ shown_entries names = shown_entries names'.
Proof.
  intros Hlist Hlist' Hperm.
  assert (Hsorted := sorted_of_Permutation names names' Hperm).
  split.
  - unfold list_dir; simpl. rewrite Hlist, Hlist'; simpl. rewrite Hsorted. reflexivity.
  - unfold shown_entries. rewrite Hsorted. reflexivity.
Qed.

Lemma listing_ignores_listdir_order_witness :
  os_listdir site_reordered "/srv/pub" = IoOk ["Zed"; "a.txt"; ".hidden"; "b.txt"]
  /\ outcome (list_dir site (get_request "/pub") "/srv/pub")
     = outcome (list_dir site_reordered (get_request "/pub") "/srv/pub")
  /\ shown_entries ["b.txt"; ".hidden"; "a.txt"; "Zed"]
     = shown_entries ["Zed"; "a.txt"; ".hidden"; "b.txt"].
Proof.
  split; [reflexivity|].
  apply (listing_ignores_listdir_order site site_reordered (get_request "/pub") "/srv/pub"
           ["b.txt"; ".hidden"; "a.txt"; "Zed"] ["Zed"; "a.txt"; ".hidden"; "b.txt"]).
  - reflexivity.
  - reflexivity.
  - apply (Permutation_rev ["b.txt"; ".hidden"; "a.txt"; "Zed"]).
Defined.

(** ** POST and the stream *)


Lemma do_POST_with_length (self : handler) (v : string) (n : Z) :
  headers_get (headers self) "Content-Length" = Some v ->
  int_of_str v = Some n ->
  do_POST self =
  ({| status := 200;
      resp_headers :=
        [("Content-Type", "text/plain");
         ("Content-Length",
          str_of_nat (10 + List.length (fst (rfile_read n (rfile self)))))];
      body := (b "Received: " ++ fst (rfile_read n (rfile self)))%list |},
   snd (rfile_read n (rfile self))).
Proof.
  intros Hget Hint. unfold do_POST. rewrite Hget, Hint.
  destruct (rfile_read n (rfile self)) as [data rest]. reflexivity.
Qed.


(** ** [int] reads back what [str] writes *)

Lemma list_ascii_of_rev_str (s : string) :
  list_ascii_of_string (rev_str s) = rev (list_ascii_of_string s).
Proof. unfold rev_str. apply list_ascii_of_string_of_list_ascii. Qed.

Lemma rev_str_involutive (s : string) : rev_str (rev_str s) = s.
Proof.
  unfold rev_str at 1. rewrite list_ascii_of_rev_str, rev_involutive.
  apply string_of_list_ascii_of_string.
Qed.

Lemma lstrip_no_space (s : string) :
  Forall (fun c => is_space c = false) (list_ascii_of_string s) -> lstrip s = s.
Proof.
  destruct s as [|c s]; simpl; [reflexivity|].
  intros H. inversion H as [|? ? Hc _]; subst. rewrite Hc. reflexivity.
Qed.

Lemma strip_no_space (s : string) :
  Forall (fun c => is_space c = false) (list_ascii_of_string s) -> strip s = s.
Proof.
  intros H. unfold strip.
  rewrite (lstrip_no_space s H), lstrip_no_space, rev_str_involutive; [reflexivity|].
  rewrite list_ascii_of_rev_str. apply Forall_rev. exact H.
Qed.

Lemma digits_no_space (d : Decimal.uint) :
  Forall (fun c => is_space c = false)
         (list_ascii_of_string (NilEmpty.string_of_uint d)).
Proof.
  induction d; simpl; constructor; try reflexivity; assumption.
Qed.

Lemma parse_digits_uint (d : Decimal.uint) (acc : nat) (after_digit : bool) :
  d <> Decimal.Nil \/ after_digit = true ->
  parse_digits (N.of_nat acc) after_digit (NilEmpty.string_of_uint d)
  = Some (N.of_nat (Nat.of_uint_acc d acc)).
Proof.
  revert acc after_digit.
  induction d as [|d IH|d IH|d IH|d IH|d IH|d IH|d IH|d IH|d IH|d IH];
    intros acc after_digit Hstart;
    [ destruct Hstart as [Hstart|Hstart]; [congruence | subst; reflexivity] | .. ];
    cbn [NilEmpty.string_of_uint parse_digits Nat.of_uint_acc];
    match goal with
    | |- context [digit_of ?c] =>
        let k := eval vm_compute in (digit_of c) in
        change (digit_of c) with k; cbv iota
    end;
    rewrite <- (IH _ true) by (right; reflexivity);
    f_equal; rewrite Nat.tail_mul_spec; lia.
Qed.

(** [int(str(n)) == n] *)
Lemma int_of_str_of_nat (n : nat) : int_of_str (str_of_nat n) = Some (Z.of_nat n).
Proof.
  unfold str_of_nat, NilZero.string_of_uint.
  assert (Hvalue := DecimalNat.Unsigned.of_to n). unfold Nat.of_uint in Hvalue.
  destruct (Nat.to_uint n) as [|d|d|d|d|d|d|d|d|d|d] eqn:Hd;
    [ simpl in Hvalue; subst n; reflexivity | .. ];
    unfold int_of_str;
    rewrite strip_no_space by apply digits_no_space;
    cbn [NilEmpty.string_of_uint];
    match type of Hvalue with
    | Nat.of_uint_acc ?u 0 = n =>
        change (parse_digits 0 false _)
          with (parse_digits (N.of_nat 0) false (NilEmpty.string_of_uint u));
        rewrite (parse_digits_uint u 0 false) by (left; discriminate)
    end;
    unfold option_map; rewrite Hvalue, nat_N_Z; reflexivity.
Qed.

(** X10. [int] reads back what [str] writes, so a POST request whose
    Content-Length is the decimal length of its body, written as the
    program itself writes lengths, is echoed whole: status 200, the
    body [Received: ] followed by the request body, and the bytes after
    the body left in the stream.  In particular a response of the
    program, sent back as a request, is echoed. *)
Theorem post_reads_decimal_length (self : handler) (data rest : bytes) :
  headers_get (headers self) "Content-Length" = Some (str_of_nat (List.length data)) ->
  rfile self = (data ++ rest)%list ->
  int_of_str (str_of_nat (List.length data)) = Some (Z.of_nat (List.length data))
  /\ do_POST self =
     ({| status := 200;
         resp_headers := [("Content-Type", "text/plain");
                          ("Content-Length", str_of_nat (10 + List.length data))];
         body := (b "Received: " ++ data)%list |},
      rest).
Proof.
  intros Hget Hstream.
  split; [apply int_of_str_of_nat|].
  rewrite (do_POST_with_length self _ _ Hget (int_of_str_of_nat _)), Hstream.
  unfold rfile_read.
  destruct (Z.ltb_spec (Z.of_nat (List.length data)) 0) as [Hneg|_]; [lia|].
  rewrite Nat2Z.id, firstn_app, skipn_app, Nat.sub_diag, firstn_all, skipn_all.
  simpl. rewrite !app_nil_r. reflexivity.
Qed.

Lemma post_reads_decimal_length_witness :
  headers_get
    (resp_headers (fst (do_POST (post_request [("Content-Length", "5")] (b "hello")))))
    "Content-Length" = Some (str_of_nat (List.length (b "Received: hello")))
  /\ do_POST
       (post_request
          (resp_headers (fst (do_POST (post_request [("Content-Length", "5")] (b "hello")))))
          (body (fst (do_POST (post_request [("Content-Length", "5")] (b "hello"))))))
     = ({| status := 200;
           resp_headers := [("Content-Type", "text/plain"); ("Content-Length", "25")];
           body := b "Received: Received: hello" |},
        []).
Proof.
  split; [reflexivity|].
  exact (proj2 (post_reads_decimal_length
                  (post_request
                     (resp_headers
                        (fst (do_POST (post_request [("Content-Length", "5")] (b "hello")))))
                     (body (fst (do_POST (post_request [("Content-Length", "5")] (b "hello"))))))
                  (b "Received: hello") [] eq_refl eq_refl)).
Defined.

(** ** The links of a listing lead to the entries *)

Lemma startswith_nil (s : string) : startswith s EmptyString = true.
Proof. destruct s; reflexivity. Qed.

Lemma startswith_cons (x y : ascii) (s pre : string) :
  startswith (String y s) (String x pre) = Ascii.eqb x y && startswith s pre.
Proof.
  unfold startswith; simpl.
  destruct (ascii_dec x y) as [->|Hne].
  - rewrite Ascii.eqb_refl. reflexivity.
  - apply Ascii.eqb_neq in Hne. rewrite Hne. reflexivity.
Qed.

Lemma no_slash_startswith (comp : string) :
  has_char "/"%char comp = false -> startswith comp "/" = false.
Proof.
  destruct comp as [|x comp]; [reflexivity|].
  intros H. simpl in H. apply orb_false_iff in H as [Hx _].
  rewrite startswith_cons, Ascii.eqb_sym, Hx. reflexivity.
Qed.

(** Appending to a path that is not all slashes, or appending text
    that starts with no slash, keeps the count of leading slashes. *)
Lemma leading_slashes_app (s t : string) :
  startswith s "/" = true ->
  (endswith s "/" = true -> startswith t "/" = false) ->
  leading_slashes (s ++ t) = leading_slashes s.
Proof.
  unfold leading_slashes. simpl repeat_str.
  destruct s as [|c1 [|c2 [|c3 s3]]]; intros Habs Hend.
  - discriminate Habs.
  - rewrite startswith_cons, startswith_nil, andb_true_r in Habs.
    apply Ascii.eqb_eq in Habs. subst c1.
    simpl append. rewrite !startswith_cons. simpl.
    rewrite (Hend eq_refl). reflexivity.
  - rewrite startswith_cons, startswith_nil, andb_true_r in Habs.
    apply Ascii.eqb_eq in Habs. subst c1.
    simpl append. rewrite !startswith_cons, !startswith_nil.
    destruct (Ascii.eqb_spec "/"%char c2) as [<-|Hc2]; [|reflexivity].
    rewrite (Hend eq_refl). reflexivity.
  - simpl append. rewrite !startswith_cons, !startswith_nil. reflexivity.
Qed.

Lemma normpath_absolute_eq (p : string) :
  startswith p "/" = true ->
  PosixPath.normpath p =
  repeat_str "/" (leading_slashes p)
  ++ PyStr.join "/"
       (fold_left (PosixPath.normpath_step (leading_slashes p)) (split "/"%char p) []).
Proof.
  intros Habs. unfold PosixPath.normpath, PosixPath.sep.
  destruct p as [|x p]; [discriminate Habs|].
  change (String.eqb (String x p) EmptyString) with false. cbv iota.
  rewrite Habs. fold (leading_slashes (String x p)).
  assert (Hcases : leading_slashes (String x p) = 1 \/ leading_slashes (String x p) = 2).
  { unfold leading_slashes. destruct (_ && _); auto. }
  destruct Hcases as [-> | ->]; reflexivity.
Qed.

Lemma split_nonempty (sep : ascii) (s : string) : split sep s <> [].
Proof.
  destruct s as [|x s]; simpl; [discriminate|].
  destruct (Ascii.eqb x sep); [discriminate|].
  destruct (split sep s); discriminate.
Qed.

Lemma split_app_slash (sep : ascii) (t rest : string) :
  split sep (t ++ String sep rest) = (split sep t ++ split sep rest)%list.
Proof.
  induction t as [|x t IH]; simpl.
  - rewrite Ascii.eqb_refl. reflexivity.
  - destruct (Ascii.eqb x sep); rewrite IH; [reflexivity|].
    destruct (split sep t) as [|comp comps] eqn:Hsplit; [|reflexivity].
    exfalso. exact (split_nonempty sep t Hsplit).
Qed.

Lemma normpath_step_skip (k : nat) (new_comps : list string) :
  PosixPath.normpath_step k new_comps EmptyString = new_comps.
Proof. reflexivity. Qed.

Lemma normpath_step_push (k : nat) (new_comps : list string) (comp : string) :
  clean_component comp ->
  PosixPath.normpath_step k new_comps comp = (new_comps ++ [comp])%list.
Proof.
  intros (Hne & Hnd & Hndd & _). unfold PosixPath.normpath_step.
  apply String.eqb_neq in Hne, Hnd, Hndd.
  unfold PosixPath.dot, PosixPath.dotdot. rewrite Hne, Hnd, Hndd. reflexivity.
Qed.

Lemma concat_snoc (sep : string) (items : list string) (item : string) :
  String.concat sep (items ++ [item]) =
  match items with
  | [] => item
  | _ => String.concat sep items ++ sep ++ item
  end.
Proof.
  induction items as [|x items IH]; [reflexivity|].
  destruct items as [|y items]; [reflexivity|].
  change (String.concat sep ((x :: y :: items) ++ [item]))
    with (x ++ sep ++ String.concat sep ((y :: items) ++ [item])).
  rewrite IH.
  change (String.concat sep (x :: y :: items))
    with (x ++ sep ++ String.concat sep (y :: items)).
  rewrite !append_assoc. reflexivity.
Qed.

Lemma endswith_app_nonempty (y c : string) :
  c <> EmptyString -> endswith (y ++ c) "/" = endswith c "/".
Proof.
  intros Hc. induction y as [|x y IH]; [reflexivity|].
  simpl append. rewrite endswith_eq, IH.
  destruct (String.eqb_spec (String x (y ++ c)) "/") as [Heq|_]; [|reflexivity].
  exfalso. injection Heq as _ Heq.
  destruct y; simpl in Heq; [congruence | discriminate].
Qed.

Lemma endswith_slash_has_char (c : string) :
  endswith c "/" = true -> has_char "/"%char c = true.
Proof.
  induction c as [|x c IH]; rewrite endswith_eq.
  - simpl. discriminate.
  - destruct (String.eqb_spec (String x c) "/") as [Heq|_].
    + intros _. injection Heq as -> _. reflexivity.
    + intros H. simpl. rewrite (IH H). apply orb_true_r.
Qed.

(** A path that ends with a clean component does not end with a slash. *)
Lemma joined_not_end_slash (y : string) (comps : list string) :
  comps <> [] ->
  Forall clean_component comps ->
  endswith (y ++ PyStr.join "/" comps) "/" = false.
Proof.
  intros Hne Hclean.
  destruct (exists_last Hne) as (init & final_comp & ->).
  apply Forall_app in Hclean as [_ Hfinal].
  inversion Hfinal as [|? ? (Hc & _ & _ & Hslash) _]; subst.
  assert (Hends : exists pre, y ++ PyStr.join "/" (init ++ [final_comp]) = pre ++ final_comp).
  { unfold PyStr.join. rewrite concat_snoc. destruct init.
    - exists y. reflexivity.
    - eexists. rewrite <- !append_assoc. reflexivity. }
  destruct Hends as [pre ->].
  rewrite (endswith_app_nonempty _ _ Hc).
  destruct (endswith final_comp "/") eqn:H; [|reflexivity].
  apply endswith_slash_has_char in H. congruence.
Qed.

(** The components [normpath] keeps, for the path with one more clean
    component. *)
Lemma normalized_comps_extend (k : nat) (s link entry : string) :
  clean_component entry ->
  (endswith s "/" = true /\ link = s ++ entry
   \/ link = s ++ "/" ++ entry) ->
  fold_left (PosixPath.normpath_step k) (split "/"%char link) []
  = (fold_left (PosixPath.normpath_step k) (split "/"%char s) [] ++ [entry])%list.
Proof.
  intros Hclean Hlink.
  assert (Hsplit : split "/"%char entry = [entry])
    by (apply split_one; apply Hclean).
  destruct Hlink as [[Hend ->] | ->].
  - apply endswith_iff in Hend as [t ->].
    rewrite append_assoc. simpl append at 2.
    rewrite !split_app_slash, Hsplit. simpl split.
    rewrite !fold_left_app. simpl fold_left.
    rewrite normpath_step_skip. apply normpath_step_push. exact Hclean.
  - simpl append at 2. rewrite split_app_slash, Hsplit, fold_left_app. simpl fold_left.
    apply normpath_step_push. exact Hclean.
Qed.

(** X11. The link that [list_dir] writes for an entry leads to that
    entry.  With an absolute working directory and a request path that
    starts with a slash, the path [os.path.join(self.path, entry)],
    requested in turn, resolves to the entry inside the directory that
    the first request resolved to, whatever the request path looked
    like (a trailing slash, [.] or [..] components): for every entry
    name that is a single clean component, as [os.listdir] returns
    them. *)
Theorem listing_links_resolve
        (w : world) (self link_request : handler) (entry : string) :
  startswith (getcwd w) "/" = true ->
  startswith (path self) "/" = true ->
  clean_component entry ->
  path link_request = PosixPath.join (path self) entry ->
  resolve w link_request = PosixPath.join (resolve w self) entry.
Proof.
  intros Hcwd Hpath Hclean Hlink.
  assert (Hentry : startswith entry "/" = false)
    by (apply no_slash_startswith; apply Hclean).
  assert (Hpath_ne : path self <> EmptyString)
    by (intros H; rewrite H in Hpath; discriminate Hpath).
  set (s := getcwd w ++ path self).
  assert (Habs : startswith s "/" = true) by (apply startswith_app; exact Hcwd).
  assert (Hs : resolve w self = PosixPath.normpath s).
  { unfold resolve, PosixPath.abspath, PosixPath.isabs, PosixPath.sep.
    fold s. rewrite Habs. reflexivity. }
  assert (Hend : endswith s "/" = endswith (path self) "/")
    by (apply endswith_app_nonempty; exact Hpath_ne).
  assert (Hshape : (endswith s "/" = true /\ getcwd w ++ path link_request = s ++ entry)
                   \/ (endswith s "/" = false
                       /\ getcwd w ++ path link_request = s ++ "/" ++ entry)).
  { rewrite Hlink, Hend. unfold PosixPath.join, PosixPath.sep. rewrite Hentry.
    apply String.eqb_neq in Hpath_ne. rewrite Hpath_ne. simpl orb.
    destruct (endswith (path self) "/"); [left | right];
      (split; [reflexivity|]); unfold s; rewrite append_assoc; reflexivity. }
  assert (Habs' : startswith (getcwd w ++ path link_request) "/" = true)
    by (apply startswith_app; exact Hcwd).
  assert (Hl : resolve w link_request = PosixPath.normpath (getcwd w ++ path link_request)).
  { unfold resolve, PosixPath.abspath, PosixPath.isabs, PosixPath.sep.
    rewrite Habs'. reflexivity. }
  rewrite Hl, Hs, (normpath_absolute_eq _ Habs'), (normpath_absolute_eq _ Habs).
  assert (Hslashes : leading_slashes (getcwd w ++ path link_request) = leading_slashes s).
  { destruct Hshape as [[Hslash ->] | [Hslash ->]];
      apply leading_slashes_app; try exact Habs; intros H; [exact Hentry | congruence]. }
  rewrite Hslashes.
  set (k := leading_slashes s).
  assert (Hk : k = 1 \/ k = 2).
  { unfold k, leading_slashes. destruct (_ && _); auto. }
  rewrite (normalized_comps_extend k s _ entry Hclean)
    by (destruct Hshape as [[Hslash ->] | [_ ->]]; auto).
  set (new_comps := fold_left (PosixPath.normpath_step k) (split "/"%char s) []).
  assert (Hnew : Forall clean_component new_comps).
  { apply normpath_fold_clean; [|apply split_no_sep | constructor].
    destruct Hk as [-> | ->]; discriminate. }
  unfold PyStr.join at 1. rewrite concat_snoc.
  unfold PosixPath.join, PosixPath.sep. rewrite Hentry.
  destruct new_comps as [|comp comps] eqn:Hcomps.
  - destruct Hk as [-> | ->]; reflexivity.
  - rewrite (joined_not_end_slash _ (comp :: comps)) by (try discriminate; exact Hnew).
    assert (Hnonempty : String.eqb (repeat_str "/" k ++ PyStr.join "/" (comp :: comps))
                                   EmptyString = false).
    { destruct Hk as [-> | ->]; reflexivity. }
    rewrite Hnonempty. simpl orb. cbv iota.
    unfold PyStr.join. rewrite !append_assoc. reflexivity.
Qed.

Lemma listing_links_resolve_witness :
  path (get_request "/docs/../pub/Zed") = PosixPath.join (path (get_request "/docs/../pub/")) "Zed"
  /\ resolve site (get_request "/docs/../pub/") = "/srv/pub"
  /\ resolve site (get_request "/docs/../pub/Zed")
     = PosixPath.join (resolve site (get_request "/docs/../pub/")) "Zed".
Proof.
  split; [reflexivity|].
  split; [reflexivity|].
  apply (listing_links_resolve site (get_request "/docs/../pub/")
           (get_request "/docs/../pub/Zed") "Zed").
  - reflexivity.
  - reflexivity.
  - repeat split; discriminate.
  - reflexivity.
Defined.

(** ** How much a request asks of the system *)

(** X12. A GET request calls [stat] at most six times, opens a file or
    lists a directory at most once, and runs at most one act.  A
    request that reads (opens or lists) has passed the prefix check and
    was not for the literal [/]. *)
Theorem get_system_call_bounds (w : world) (self : handler) :
  count_events is_stat (fst (do_GET w self)) <= 6
  /\ count_events is_read (fst (do_GET w self)) <= 1
  /\ count_events is_act (fst (do_GET w self)) <= 1
  /\ (count_events is_read (fst (do_GET w self)) = 1 ->
      path self <> "/" /\ startswith (resolve w self) (getcwd w) = true).
Proof.
  rewrite do_GET_log. unfold count_events.
  destruct (String.eqb_spec (path self) "/") as [Hroot|Hroot].
  { rewrite (do_GET_try_root w self Hroot). simpl. repeat split; try lia; try discriminate. }
  destruct (startswith (resolve w self) (getcwd w)) eqn:Hin.
  - rewrite (do_GET_try_chain w self Hroot Hin).
    chain_cases w (set_full_path self (resolve w self));
      unfold log; simpl; repeat split; auto; lia.
  - rewrite (do_GET_try_traversal w self Hroot Hin). simpl.
    repeat split; try lia; try discriminate.
Qed.
